(** * Course availability settings handler

    A shallow embedding of [modules/courses/availability.py]: the
    read side ([add_unit], [add_lesson], [traverse_course]) and the write
    side ([put]) of [AvailabilityRESTHandler], together with the part of
    the course model these two call into. *)

From stdpp Require Import base option list gmap strings.
From Stdlib Require Import ZArith Lia.

(** ** Python values *)

(** The scalar JSON values a payload, a settings dictionary or an
    availability attribute can hold. *)
Inductive pyval : Type :=
  | PNone
  | PBool (b : bool)
  | PInt (z : Z)
  | PStr (s : string).

#[global] Instance pyval_eq_dec : EqDecision pyval.
Proof. solve_decision. Defined.

(** Python truthiness, as tested by [if x:] and computed by [bool(x)]. *)
Definition py_truthy (v : pyval) : bool :=
  match v with
  | PNone => false
  | PBool b => b
  | PInt z => negb (Z.eqb z 0)
  | PStr EmptyString => false
  | PStr (String _ _) => true
  end.

(** [bool(x)] *)
Definition py_bool (v : pyval) : pyval := PBool (py_truthy v).

(** [d.get(key)]: a missing key and a key bound to [null] both give
    [None]. An [option pyval] field is [None] when the key is missing. *)
Definition dict_get (field : option pyval) : pyval := default PNone field.

(** The exceptions the handler's code can raise. *)
Inductive exn : Type := ValueError | KeyError | AttributeError.

#[global] Instance exn_eq_dec : EqDecision exn.
Proof. solve_decision. Defined.

Inductive result (A : Type) : Type :=
  | Ok (a : A)
  | Raise (e : exn).
Arguments Ok {A} a.
Arguments Raise {A} e.

#[global] Instance result_ret : MRet result := λ A a, Ok a.

#[global] Instance result_bind : MBind result := λ A B k r,
  match r with
  | Ok a => k a
  | Raise e => Raise e
  end.

(** ** The course model *)

Module CourseModel.

(** Identifiers of units and lessons. References to them are tested for
    truth in the handler ([if unit.pre_assessment:]); an identifier that
    is present is a non-zero number, hence [positive]. *)
Definition ident : Type := positive.
Bind Scope positive_scope with ident.

(** The handler asks [is_unit()] and [is_assessment()] separately, so a
    unit can be neither. *)
Inductive UnitType : Type := TypeUnit | TypeAssessment | TypeOther.

#[global] Instance UnitType_eq_dec : EqDecision UnitType.
Proof. solve_decision. Defined.

(** Modelled from the spec: the unit and lesson objects of
    [models/courses.py], with the attributes the handler reads and
    writes. *)
Record Unit : Type := mkUnit {
  unit_id : ident;
  unit_type : UnitType;
  title : string;
  availability : pyval;
  shown_when_unavailable : pyval;
  pre_assessment : option ident;
  post_assessment : option ident;
}.

Record Lesson : Type := mkLesson {
  lesson_id : ident;
  lesson_unit_id : ident;
  lesson_title : string;
  lesson_availability : pyval;
  lesson_shown_when_unavailable : pyval;
}.

#[global] Instance Unit_eq_dec : EqDecision Unit.
Proof. solve_decision. Defined.

#[global] Instance Lesson_eq_dec : EqDecision Lesson.
Proof. solve_decision. Defined.

(** Modelled from the spec: the course object of [models/courses.py],
    which is not part of the sources at hand. It holds the ordered units,
    the ordered lessons (each naming the unit it belongs to) and the
    course-wide availability policy. *)
Record Course : Type := mkCourse {
  units : list Unit;
  lessons : list Lesson;
  course_availability : pyval;
}.

(** Modelled from the spec: [unit.is_unit()] and [unit.is_assessment()],
    the two tests of the unit's kind. *)
Definition is_unit (u : Unit) : bool := bool_decide (unit_type u = TypeUnit).
Definition is_assessment (u : Unit) : bool :=
  bool_decide (unit_type u = TypeAssessment).

(** First element of a list that satisfies a test, as a [for] loop with an
    early [return] finds it. *)
Fixpoint first_match {A} (p : A → bool) (l : list A) : option A :=
  match l with
  | [] => None
  | x :: r => if p x then Some x else first_match p r
  end.

(** Modelled from the spec: [course.get_units()], the units in stored
    order. *)
Definition get_units (course : Course) : list Unit := units course.

(** Modelled from the spec: [course.find_unit_by_id(unit_id)], the unit
    with that identifier, [None] when there is none. *)
Definition find_unit_by_id (course : Course) (i : ident) : option Unit :=
  first_match (λ u, bool_decide (unit_id u = i)) (units course).

(** Modelled from the spec: [course.find_lesson_by_id(None, lesson_id)];
    the lookup does not look at the unit. *)
Definition find_lesson_by_id (course : Course) (i : ident) : option Lesson :=
  first_match (λ l, bool_decide (lesson_id l = i)) (lessons course).

(** Modelled from the spec: [course.get_lessons(unit_id)], the lessons of
    that unit in stored lesson order. *)
Definition get_lessons (course : Course) (i : ident) : list Lesson :=
  filter (λ l, lesson_unit_id l = i) (lessons course).

Definition refers_to (i : ident) (u : Unit) : bool :=
  bool_decide (pre_assessment u = Some i) || bool_decide (post_assessment u = Some i).

(** Modelled from the spec: [course.get_parent_unit(unit_id)], a unit
    that names [unit_id] as its pre- or post-assessment, [None] when no
    unit does. *)
Definition get_parent_unit (course : Course) (i : ident) : option Unit :=
  first_match (refers_to i) (units course).

End CourseModel.
Export CourseModel.

(** ** Reading: the flattened outline *)

(** One entry of [element_settings] as [get] sends it. *)
Record Element : Type := mkElement {
  e_type : string;
  e_id : ident;
  e_indent : bool;
  e_name : string;
  e_availability : pyval;
  e_shown_when_unavailable : pyval;
}.

#[global] Instance Element_eq_dec : EqDecision Element.
Proof. solve_decision. Defined.

Definition unit_element (u : Unit) (indent : bool) : Element :=
  {| e_type := "unit";
     e_id := unit_id u;
     e_indent := indent;
     e_name := title u;
     e_availability := availability u;
     e_shown_when_unavailable := shown_when_unavailable u |}.

Definition lesson_element (l : Lesson) : Element :=
  {| e_type := "lesson";
     e_id := lesson_id l;
     e_indent := true;
     e_name := lesson_title l;
     e_availability := lesson_availability l;
     e_shown_when_unavailable := lesson_shown_when_unavailable l |}.

(** [add_unit(unit, elements, indent)]. The argument is whatever the
    caller passes, [None] included: reading [unit.unit_id] of [None]
    raises AttributeError. *)
Definition add_unit (u : option Unit) (elements : list Element)
    (indent : bool) : result (list Element) :=
  match u with
  | None => Raise AttributeError
  | Some u => Ok (elements ++ [unit_element u indent])
  end.

(** [add_lesson(lesson, elements)] *)
Definition add_lesson (l : Lesson) (elements : list Element) : list Element :=
  elements ++ [lesson_element l].

(** The body of the loop of [traverse_course] for one unit. *)
Definition traverse_unit (course : Course) (elements : list Element)
    (u : Unit) : result (list Element) :=
  if is_assessment u && bool_decide (is_Some (get_parent_unit course (unit_id u)))
  then Ok elements
  else
    elements ← add_unit (Some u) elements false;
    if is_unit u then
      elements ←
        match pre_assessment u with
        | Some p => add_unit (find_unit_by_id course p) elements true
        | None => Ok elements
        end;
      let elements :=
        foldl (λ els l, add_lesson l els) elements
              (get_lessons course (unit_id u)) in
      match post_assessment u with
      | Some q => add_unit (find_unit_by_id course q) elements true
      | None => Ok elements
      end
    else Ok elements.

Fixpoint traverse_units (course : Course) (us : list Unit)
    (elements : list Element) : result (list Element) :=
  match us with
  | [] => Ok elements
  | u :: rest =>
      elements ← traverse_unit course elements u;
      traverse_units course rest elements
  end.

(** [traverse_course(course)] *)
Definition traverse_course (course : Course) : result (list Element) :=
  traverse_units course (get_units course) [].

(** ** Writing: merging a payload *)

(** The settings dictionary of the course: [settings['reg_form']] and
    [settings['course']]. *)
Record Settings : Type := mkSettings {
  reg_form : gmap string pyval;
  course_dict : gmap string pyval;
}.

(** One entry of the payload's [element_settings]; a field is [None] when
    the entry has no such key. *)
Record Item : Type := mkItem {
  it_type : option pyval;
  it_id : option ident;
  it_availability : option pyval;
  it_shown_when_unavailable : option pyval;
}.

(** The decoded payload; a field is [None] when the key is missing. *)
Record Payload : Type := mkPayload {
  p_whitelist : option pyval;
  p_show_lessons_in_syllabus : option pyval;
  p_course_availability : option pyval;
  p_element_settings : option (list Item);
}.

(** What [put] gets from its surroundings: the outcome of the XSRF token
    check, the outcome of the permission check, and the payload. *)
Record Request : Type := mkRequest {
  xsrf_ok : bool;
  user_allowed : bool;
  payload : Payload;
}.

(** Calls into the collaborators, in the order they are made. The two
    saves record what was handed to the persistence layer. *)
Inductive Call : Type :=
  | SaveSettings (s : Settings)
  | SetCourseAvailability (v : pyval)
  | Save (us : list Unit) (ls : list Lesson)
  | SendJsonResponse (status : Z) (message : string).

(** The objects a request works on: the course, the settings dictionary,
    and the calls made so far. *)
Record World : Type := mkWorld {
  w_course : Course;
  w_settings : Settings;
  w_calls : list Call;
}.

(** State with exceptions: a raised exception keeps the mutations made
    before it. *)
Definition M (A : Type) : Type := World → result A * World.

#[global] Instance M_ret : MRet M := λ A a w, (Ok a, w).

#[global] Instance M_bind : MBind M := λ A B k m w,
  match m w with
  | (Ok a, w') => k a w'
  | (Raise e, w') => (Raise e, w')
  end.

Definition raise {A} (e : exn) : M A := λ w, (Raise e, w).

Definition get_course : M Course := λ w, (Ok (w_course w), w).

Definition modify_course (f : Course → Course) : M unit := λ w,
  (Ok tt, mkWorld (f (w_course w)) (w_settings w) (w_calls w)).

Definition modify_settings (f : Settings → Settings) : M unit := λ w,
  (Ok tt, mkWorld (w_course w) (f (w_settings w)) (w_calls w)).

Definition call (c : World → Call) : M unit := λ w,
  (Ok tt, mkWorld (w_course w) (w_settings w) (w_calls w ++ [c w])).

(** [for x in l: body(x)] *)
Fixpoint for_each {A} (l : list A) (body : A → M unit) : M unit :=
  match l with
  | [] => mret tt
  | x :: r => body x ;; for_each r body
  end.

(** [item[key]]: KeyError when the key is missing. *)
Definition item_get {A} (field : option A) : M A :=
  match field with
  | Some v => mret v
  | None => raise KeyError
  end.

(** [transforms.send_json_response(self, status, message)] *)
Definition send_json_response (status : Z) (message : string) : M unit :=
  call (λ _, SendJsonResponse status message).

(** [course.save_settings(settings)] *)
Definition save_settings : M unit :=
  call (λ w, SaveSettings (w_settings w)).

(** [course.save()] *)
Definition save : M unit :=
  call (λ w, Save (units (w_course w)) (lessons (w_course w))).

(** Modelled from the spec: [course.set_course_availability(value)], the
    course model's setter of the course-wide availability policy. *)
Definition set_course_availability (v : pyval) : M unit :=
  modify_course (λ c, mkCourse (units c) (lessons c) v) ;;
  call (λ _, SetCourseAvailability v).

(** [settings['reg_form'][key] = v] and [settings['course'][key] = v] *)
Definition set_reg_form (key : string) (v : pyval) (s : Settings) : Settings :=
  mkSettings (<[key := v]> (reg_form s)) (course_dict s).
Definition set_course_dict (key : string) (v : pyval) (s : Settings) : Settings :=
  mkSettings (reg_form s) (<[key := v]> (course_dict s)).

(** Attribute assignments on a unit and on a lesson. *)
Definition set_unit_availability (v : pyval) (u : Unit) : Unit :=
  mkUnit (unit_id u) (unit_type u) (title u) v (shown_when_unavailable u)
         (pre_assessment u) (post_assessment u).
Definition set_unit_shown_when_unavailable (v : pyval) (u : Unit) : Unit :=
  mkUnit (unit_id u) (unit_type u) (title u) (availability u) v
         (pre_assessment u) (post_assessment u).
Definition set_lesson_availability (v : pyval) (l : Lesson) : Lesson :=
  mkLesson (lesson_id l) (lesson_unit_id l) (lesson_title l) v
           (lesson_shown_when_unavailable l).
Definition set_lesson_shown_when_unavailable (v : pyval) (l : Lesson) : Lesson :=
  mkLesson (lesson_id l) (lesson_unit_id l) (lesson_title l)
           (lesson_availability l) v.

(** The two conditional assignments of the loop body, on the object the
    lookup returned. *)
Definition assign_unit (item : Item) (u : Unit) : Unit :=
  let u := match it_availability item with
           | Some v => set_unit_availability v u
           | None => u
           end in
  match it_shown_when_unavailable item with
  | Some v => set_unit_shown_when_unavailable v u
  | None => u
  end.

Definition assign_lesson (item : Item) (l : Lesson) : Lesson :=
  let l := match it_availability item with
           | Some v => set_lesson_availability v l
           | None => l
           end in
  match it_shown_when_unavailable item with
  | Some v => set_lesson_shown_when_unavailable v l
  | None => l
  end.

(** The object a lookup returns is the one the course holds: assigning to
    its attributes changes the course. [replace_first p x' l] puts the
    changed object [x'] where the lookup by [p] found the original. *)
Fixpoint replace_first {A} (p : A → bool) (x' : A) (l : list A) : list A :=
  match l with
  | [] => []
  | x :: r => if p x then x' :: r else x :: replace_first p x' r
  end.

Definition store_unit (u' : Unit) (c : Course) : Course :=
  mkCourse (replace_first (λ u, bool_decide (unit_id u = unit_id u')) u' (units c))
           (lessons c) (course_availability c).

Definition store_lesson (l' : Lesson) (c : Course) : Course :=
  mkCourse (units c)
           (replace_first (λ l, bool_decide (lesson_id l = lesson_id l')) l' (lessons c))
           (course_availability c).

(** The body of the loop over [element_settings]. *)
Definition put_item (item : Item) : M unit :=
  ty ← item_get (it_type item);
  if bool_decide (ty = PStr "unit") then
    i ← item_get (it_id item);
    course ← get_course;
    match find_unit_by_id course i with
    | Some element => modify_course (store_unit (assign_unit item element))
    | None => mret tt
    end
  else if bool_decide (ty = PStr "lesson") then
    i ← item_get (it_id item);
    course ← get_course;
    match find_lesson_by_id course i with
    | Some element => modify_course (store_lesson (assign_lesson item element))
    | None => mret tt
    end
  else raise ValueError.

(** [put], from the access checks on. A failed XSRF check has already
    been answered by [assert_xsrf_token_or_fail]. *)
Definition put (request : Request) : M unit :=
  if negb (xsrf_ok request) then mret tt
  else if negb (user_allowed request) then
    send_json_response 401 "Access denied."
  else
    let payload := payload request in
    let whitelist := dict_get (p_whitelist payload) in
    (if bool_decide (whitelist ≠ PNone)
     then modify_settings (set_reg_form "whitelist" whitelist)
     else mret tt) ;;
    let show_lessons_in_syllabus :=
      dict_get (p_show_lessons_in_syllabus payload) in
    (if bool_decide (show_lessons_in_syllabus ≠ PNone)
     then modify_settings
            (set_course_dict "show_lessons_in_syllabus"
                             (py_bool show_lessons_in_syllabus))
     else mret tt) ;;
    save_settings ;;
    let course_availability := dict_get (p_course_availability payload) in
    (if py_truthy course_availability
     then set_course_availability course_availability
     else mret tt) ;;
    for_each (default [] (p_element_settings payload)) put_item ;;
    save ;;
    send_json_response 200 "Saved.".

(** ** Notions used to state the properties *)

(** Both access checks of [put] passed. *)
Definition authorized (r : Request) : bool := xsrf_ok r && user_allowed r.

Definition with_element_settings (items : option (list Item))
    (r : Request) : Request :=
  mkRequest (xsrf_ok r) (user_allowed r)
    (mkPayload (p_whitelist (payload r))
               (p_show_lessons_in_syllabus (payload r))
               (p_course_availability (payload r)) items).

Definition with_whitelist (v : option pyval) (r : Request) : Request :=
  mkRequest (xsrf_ok r) (user_allowed r)
    (mkPayload v (p_show_lessons_in_syllabus (payload r))
               (p_course_availability (payload r))
               (p_element_settings (payload r))).

Definition with_show_lessons_in_syllabus (v : option pyval)
    (r : Request) : Request :=
  mkRequest (xsrf_ok r) (user_allowed r)
    (mkPayload (p_whitelist (payload r)) v
               (p_course_availability (payload r))
               (p_element_settings (payload r))).

(** Identifiers are unique within a course. *)
Definition unique_unit_ids (c : Course) : Prop := NoDup (unit_id <$> units c).
Definition unique_lesson_ids (c : Course) : Prop :=
  NoDup (lesson_id <$> lessons c).

(** No unit carries a pre- or post-assessment reference. *)
Definition no_assessment_links (c : Course) : Prop :=
  Forall (λ u, pre_assessment u = None ∧ post_assessment u = None) (units c).

(** Every lesson belongs to a plain unit of the course. *)
Definition lessons_in_plain_units (c : Course) : Prop :=
  Forall (λ l, Exists (λ u, unit_id u = lesson_unit_id l ∧ is_unit u = true)
                      (units c))
         (lessons c).

(** A reference resolves when it is absent or names a unit of the course. *)
Definition resolves (c : Course) (r : option ident) : bool :=
  match r with
  | None => true
  | Some p => bool_decide (is_Some (find_unit_by_id c p))
  end.

(** Every reference held by a plain unit resolves. *)
Definition refs_resolve (c : Course) : bool :=
  forallb (λ u, negb (is_unit u)
                || (resolves c (pre_assessment u) && resolves c (post_assessment u)))
          (units c).

(** The outline of a course without assessment links: each unit, in
    stored order, followed by its lessons in stored lesson order. *)
Definition plain_outline (c : Course) : list Element :=
  concat ((λ u, unit_element u false
                  :: (lesson_element <$> get_lessons c (unit_id u)))
          <$> units c).

(** The payload entry that sends an element of the outline back with its
    own availability and visibility. *)
Definition item_of_element (e : Element) : Item :=
  {| it_type := Some (PStr (e_type e));
     it_id := Some (e_id e);
     it_availability := Some (e_availability e);
     it_shown_when_unavailable := Some (e_shown_when_unavailable e) |}.

(** The type of an entry is neither "unit" nor "lesson". *)
Definition bad_type (it : Item) : Prop :=
  ∃ ty, it_type it = Some ty ∧ ty ≠ PStr "unit" ∧ ty ≠ PStr "lesson".

(** An entry with a well-formed type whose id names nothing in the
    course. *)
Definition unresolved (c : Course) (it : Item) : Prop :=
  ∃ i, it_id it = Some i ∧
    ((it_type it = Some (PStr "unit") ∧ find_unit_by_id c i = None) ∨
     (it_type it = Some (PStr "lesson") ∧ find_lesson_by_id c i = None)).

(** An entry that has a type "unit" or "lesson" and an id. *)
Definition well_formed (it : Item) : Prop :=
  (it_type it = Some (PStr "unit") ∨ it_type it = Some (PStr "lesson"))
  ∧ is_Some (it_id it).

Definition is_setter_call (c : Call) : bool :=
  match c with SetCourseAvailability _ => true | _ => false end.
Definition is_save_call (c : Call) : bool :=
  match c with Save _ _ => true | _ => false end.
Definition is_save_settings_call (c : Call) : bool :=
  match c with SaveSettings _ => true | _ => false end.

(** *** A functional reading of [traverse_course] *)

(** The element a reference contributes. *)
Definition nested (c : Course) (r : option ident) : result (list Element) :=
  match r with
  | None => Ok []
  | Some p => match find_unit_by_id c p with
              | Some a => Ok [unit_element a true]
              | None => Raise AttributeError
              end
  end.

(** The elements one unit contributes to the outline. *)
Definition block (c : Course) (u : Unit) : result (list Element) :=
  if is_assessment u && bool_decide (is_Some (get_parent_unit c (unit_id u)))
  then Ok []
  else if is_unit u then
    pre ← nested c (pre_assessment u);
    post ← nested c (post_assessment u);
    Ok (unit_element u false :: pre
          ++ (lesson_element <$> get_lessons c (unit_id u)) ++ post)
  else Ok [unit_element u false].

Fixpoint blocks (c : Course) (us : list Unit) : result (list Element) :=
  match us with
  | [] => Ok []
  | u :: rest =>
      b ← block c u;
      r ← blocks c rest;
      Ok (b ++ r)
  end.

(** *** A functional reading of the loop of [put] *)

(** Change the first element that satisfies a test. *)
Fixpoint modify_first {A} (p : A → bool) (f : A → A) (l : list A) : list A :=
  match l with
  | [] => []
  | x :: r => if p x then f x :: r else x :: modify_first p f r
  end.

(** The exception an entry raises; it depends on the entry alone. *)
Definition item_error (it : Item) : option exn :=
  match it_type it with
  | None => Some KeyError
  | Some ty =>
      if bool_decide (ty = PStr "unit") || bool_decide (ty = PStr "lesson")
      then match it_id it with
           | None => Some KeyError
           | Some _ => None
           end
      else Some ValueError
  end.

(** What an entry that raises nothing does to the course. *)
Definition item_effect (it : Item) (c : Course) : Course :=
  match it_type it, it_id it with
  | Some ty, Some i =>
      if bool_decide (ty = PStr "unit") then
        mkCourse (modify_first (λ u, bool_decide (unit_id u = i))
                               (assign_unit it) (units c))
                 (lessons c) (course_availability c)
      else if bool_decide (ty = PStr "lesson") then
        mkCourse (units c)
                 (modify_first (λ l, bool_decide (lesson_id l = i))
                               (assign_lesson it) (lessons c))
                 (course_availability c)
      else c
  | _, _ => c
  end.

Definition run_effects (items : list Item) (c : Course) : Course :=
  foldl (λ c it, item_effect it c) c items.

(** The entries the loop gets through, and the exception that stops it. *)
Fixpoint ok_prefix (items : list Item) : list Item :=
  match items with
  | [] => []
  | it :: r => match item_error it with
               | None => it :: ok_prefix r
               | Some _ => []
               end
  end.

Fixpoint first_error (items : list Item) : option exn :=
  match items with
  | [] => None
  | it :: r => match item_error it with
               | None => first_error r
               | Some e => Some e
               end
  end.

Definition merge_settings (p : Payload) (s : Settings) : Settings :=
  let s := if bool_decide (dict_get (p_whitelist p) ≠ PNone)
           then set_reg_form "whitelist" (dict_get (p_whitelist p)) s
           else s in
  if bool_decide (dict_get (p_show_lessons_in_syllabus p) ≠ PNone)
  then set_course_dict "show_lessons_in_syllabus"
         (py_bool (dict_get (p_show_lessons_in_syllabus p))) s
  else s.

Definition apply_policy (p : Payload) (c : Course) : Course :=
  if py_truthy (dict_get (p_course_availability p))
  then mkCourse (units c) (lessons c) (dict_get (p_course_availability p))
  else c.

Definition policy_calls (p : Payload) : list Call :=
  if py_truthy (dict_get (p_course_availability p))
  then [SetCourseAvailability (dict_get (p_course_availability p))]
  else [].

(** An element of the outline carries the availability and visibility of
    the unit or lesson its type and id name in the course. *)
Definition echoes (c : Course) (e : Element) : Prop :=
  (e_type e = "unit"
   ∧ ∃ u, find_unit_by_id c (e_id e) = Some u
          ∧ e_availability e = availability u
          ∧ e_shown_when_unavailable e = shown_when_unavailable u)
  ∨ (e_type e = "lesson"
     ∧ ∃ l, find_lesson_by_id c (e_id e) = Some l
            ∧ e_availability e = lesson_availability l
            ∧ e_shown_when_unavailable e = lesson_shown_when_unavailable l).

(** What [put] returns and leaves behind once both access checks have
    passed. *)
Definition merged (r : Request) (w : World) : result unit * World :=
  let p := payload r in
  let items := default [] (p_element_settings p) in
  let s' := merge_settings p (w_settings w) in
  let c' := run_effects (ok_prefix items) (apply_policy p (w_course w)) in
  let calls := w_calls w ++ SaveSettings s' :: policy_calls p in
  match first_error items with
  | Some e => (Raise e, mkWorld c' s' calls)
  | None =>
      (Ok tt,
       mkWorld c' s'
         (calls ++ [Save (units c') (lessons c');
                    SendJsonResponse 200 "Saved."]))
  end.

(** *** Sample data *)

Definition sample_unit : Unit :=
  mkUnit 1 TypeUnit "Unit 1" (PStr "public") (PBool false) (Some 2%positive) (Some 3%positive).
Definition sample_pre : Unit :=
  mkUnit 2 TypeAssessment "Pre" (PStr "private") (PBool true) None None.
Definition sample_post : Unit :=
  mkUnit 3 TypeAssessment "Post" (PStr "course") (PBool false) None None.
Definition sample_lesson_a : Lesson :=
  mkLesson 10 1 "Lesson A" (PStr "course") (PBool false).
Definition sample_lesson_b : Lesson :=
  mkLesson 11 1 "Lesson B" (PStr "private") (PBool true).

(** A unit with a pre- and a post-assessment and two lessons. *)
Definition sample_course : Course :=
  mkCourse [sample_pre; sample_unit; sample_post]
           [sample_lesson_a; sample_lesson_b] (PStr "private").

Definition sample_outline : list Element :=
  [unit_element sample_unit false; unit_element sample_pre true;
   lesson_element sample_lesson_a; lesson_element sample_lesson_b;
   unit_element sample_post true].

(** Two plain units without assessment links, three lessons. *)
Definition plain_course : Course :=
  mkCourse [mkUnit 1 TypeUnit "One" (PStr "public") (PBool false) None None;
            mkUnit 2 TypeUnit "Two" (PStr "course") (PBool true) None None]
           [mkLesson 10 2 "Two A" (PStr "course") (PBool false);
            mkLesson 11 1 "One A" (PStr "course") (PBool false);
            mkLesson 12 2 "Two B" (PStr "private") (PBool false)]
           (PStr "public").

(** A standalone assessment that owns a lesson. *)
Definition assessment_with_lesson : Course :=
  mkCourse [mkUnit 1 TypeAssessment "Quiz" (PStr "course") (PBool false) None None]
           [mkLesson 10 1 "Inside" (PStr "course") (PBool false)]
           (PStr "public").

(** A plain unit whose pre-assessment reference names no unit. *)
Definition dangling_course : Course :=
  mkCourse [mkUnit 1 TypeUnit "One" (PStr "public") (PBool false) (Some 7%positive) None]
           [] (PStr "public").

Definition sample_settings : Settings :=
  mkSettings {[ "whitelist" := PStr "a@example.com" ]}
             {[ "show_lessons_in_syllabus" := PBool true ]}.

Definition sample_world : World := mkWorld sample_course sample_settings [].

Definition empty_payload : Payload := mkPayload None None None None.

(** One entry of type "section". *)
Definition section_request : Request :=
  mkRequest true true
    (mkPayload None None None
       (Some [mkItem (Some (PStr "section")) (Some 1%positive)
                     (Some (PStr "public")) None])).

(** An entry for a unit that does not exist, between two that do. *)
Definition missing_item : Item :=
  mkItem (Some (PStr "unit")) (Some 99%positive) (Some (PStr "public")) None.
Definition missing_request : Request :=
  mkRequest true true
    (mkPayload None None None
       (Some [mkItem (Some (PStr "unit")) (Some 2%positive) (Some (PStr "public")) None;
              missing_item;
              mkItem (Some (PStr "lesson")) (Some 10%positive) None (Some (PBool true))])).

Definition empty_whitelist_request : Request :=
  mkRequest true true (mkPayload (Some (PStr EmptyString)) None None None).

Definition policy_request : Request :=
  mkRequest true true (mkPayload None None (Some (PStr "public")) None).

Definition null_request : Request :=
  mkRequest true true (mkPayload (Some PNone) (Some PNone) None None).

Definition roundtrip_request : Request :=
  mkRequest true true
    (mkPayload None None None (Some (item_of_element <$> sample_outline))).

(** ** Reading: the handler's [get] *)

(** Modelled from the spec: [course.get_course_availability()], the
    course-wide availability policy. *)
Definition get_course_availability (c : Course) : pyval :=
  course_availability c.

(** [AvailabilityRESTHandler.ACTION] *)
Definition ACTION : string := "availability".

(** The dictionary [get] sends as [payload_dict]. *)
Record Entity : Type := mkEntity {
  ent_course_availability : pyval;
  ent_show_lessons_in_syllabus : pyval;
  ent_whitelist : pyval;
  ent_element_settings : list Element;
}.

(** The arguments of the one call to [transforms.send_json_response] that
    [get] makes. The XSRF token is recorded by the action it is created
    for. *)
Record Reply : Type := mkReply {
  status : Z;
  message : string;
  payload_dict : option Entity;
  xsrf_token : option string;
}.

(** [get], given the outcome of the permission check. It changes neither
    the course nor the settings. The entries of the dictionary are
    evaluated in the order they are written: the whitelist lookup comes
    before the traversal. *)
Definition get (allowed : bool) (w : World) : result Reply :=
  if negb allowed then Ok (mkReply 401 "Access denied." None None)
  else
    let course := w_course w in
    let course_availability := get_course_availability course in
    let settings := w_settings w in
    let show_lessons_in_syllabus :=
      default (PBool false)
              (course_dict settings !! "show_lessons_in_syllabus") in
    whitelist ← match reg_form settings !! "whitelist" with
                | Some v => Ok v
                | None => Raise KeyError
                end;
    element_settings ← traverse_course course;
    Ok (mkReply 200 "OK."
          (Some (mkEntity course_availability show_lessons_in_syllabus
                          whitelist element_settings))
          (Some ACTION)).

(** ** Further notions *)

(** The payload a client sends when it returns what [get] gave it. *)
Definition payload_of_entity (e : Entity) : Payload :=
  mkPayload (Some (ent_whitelist e))
            (Some (ent_show_lessons_in_syllabus e))
            (Some (ent_course_availability e))
            (Some (item_of_element <$> ent_element_settings e)).

(** The test of the first line of the loop of [traverse_course]. *)
Definition skipped (c : Course) (u : Unit) : bool :=
  is_assessment u && bool_decide (is_Some (get_parent_unit c (unit_id u))).

(** What [put] never assigns to: everything about a unit or lesson but
    its availability and its visibility. *)
Definition same_unit_frame (u u' : Unit) : Prop :=
  unit_id u = unit_id u' ∧ unit_type u = unit_type u' ∧ title u = title u'
  ∧ pre_assessment u = pre_assessment u'
  ∧ post_assessment u = post_assessment u'.

Definition same_lesson_frame (l l' : Lesson) : Prop :=
  lesson_id l = lesson_id l' ∧ lesson_unit_id l = lesson_unit_id l'
  ∧ lesson_title l = lesson_title l'.

Definition same_frame (c c' : Course) : Prop :=
  Forall2 same_unit_frame (units c) (units c')
  ∧ Forall2 same_lesson_frame (lessons c) (lessons c').

(** What the outline shows of an element apart from its settings. *)
Definition shape (e : Element) : string * ident * bool * string :=
  (e_type e, e_id e, e_indent e, e_name e).

Definition result_map {A B} (f : A → B) (r : result A) : result B :=
  match r with
  | Ok a => Ok (f a)
  | Raise e => Raise e
  end.

(** The entity an entry is for: [(true, i)] for unit [i], [(false, i)]
    for lesson [i], nothing for an entry that raises. *)
Definition item_target (it : Item) : option (bool * ident) :=
  match it_type it, it_id it with
  | Some ty, Some i =>
      if bool_decide (ty = PStr "unit") then Some (true, i)
      else if bool_decide (ty = PStr "lesson") then Some (false, i)
      else None
  | _, _ => None
  end.

(** *** More sample data *)

(** An assessment named as the pre-assessment of another assessment. *)
Definition orphaned_course : Course :=
  mkCourse [mkUnit 1 TypeAssessment "Outer" (PStr "public") (PBool false)
                   (Some 2%positive) None;
            mkUnit 2 TypeAssessment "Inner" (PStr "public") (PBool false)
                   None None]
           [] (PStr "public").

Definition two_entries_request : Request :=
  mkRequest true true
    (mkPayload None None None
       (Some [mkItem (Some (PStr "unit")) (Some 1%positive)
                     (Some (PStr "private")) None;
              mkItem (Some (PStr "unit")) (Some 1%positive)
                     (Some (PStr "course")) (Some (PBool true));
              mkItem (Some (PStr "lesson")) (Some 10%positive)
                     None (Some (PBool true))])).

Definition partial_request : Request :=
  mkRequest true true
    (mkPayload None None None
       (Some [mkItem (Some (PStr "unit")) (Some 1%positive)
                     (Some (PStr "private")) None;
              mkItem (Some (PStr "chapter")) (Some 1%positive) None None;
              mkItem (Some (PStr "lesson")) (Some 10%positive)
                     None (Some (PBool true))])).

Definition full_request : Request :=
  mkRequest true true
    (mkPayload (Some (PStr "b@example.com")) (Some (PInt 0))
               (Some (PStr "registration_required")) None).

(** * Properties of the read side *)

Section traversal.
Implicit Types (c : Course) (u : Unit) (l : Lesson).
Implicit Types (els : list Element) (e : Element).

Lemma foldl_add_lesson (ls : list Lesson) els :
  foldl (λ els l, add_lesson l els) els ls = els ++ (lesson_element <$> ls).
Proof.
  revert els. induction ls as [|l ls IH]; intros els; simpl.
  - by rewrite app_nil_r.
  - rewrite IH. unfold add_lesson. by rewrite <- app_assoc.
Qed.

Lemma traverse_unit_block c els u :
  traverse_unit c els u = (b ← block c u; Ok (els ++ b)).
Proof.
  unfold traverse_unit, block.
  destruct (is_assessment u && _); simpl; [by rewrite app_nil_r|].
  destruct (is_unit u); simpl; [|done].
  destruct (pre_assessment u) as [p|]; simpl.
  - destruct (find_unit_by_id c p) as [a|]; simpl; [|done].
    rewrite foldl_add_lesson.
    destruct (post_assessment u) as [q|]; simpl.
    + destruct (find_unit_by_id c q) as [a'|]; simpl; [|done].
      f_equal. by rewrite <- !app_assoc.
    + f_equal. by rewrite app_nil_r, <- !app_assoc.
  - rewrite foldl_add_lesson.
    destruct (post_assessment u) as [q|]; simpl.
    + destruct (find_unit_by_id c q) as [a'|]; simpl; [|done].
      f_equal. by rewrite <- !app_assoc.
    + f_equal. by rewrite app_nil_r, <- !app_assoc.
Qed.

Lemma traverse_units_blocks c us els :
  traverse_units c us els = (r ← blocks c us; Ok (els ++ r)).
Proof.
  revert els. induction us as [|u us IH]; intros els; simpl.
  - by rewrite app_nil_r.
  - rewrite traverse_unit_block.
    destruct (block c u) as [b|e]; simpl; [|done].
    rewrite IH. destruct (blocks c us) as [r|e]; simpl; [|done].
    by rewrite <- app_assoc.
Qed.

Lemma traverse_course_blocks c : traverse_course c = blocks c (units c).
Proof.
  unfold traverse_course, get_units. rewrite traverse_units_blocks.
  by destruct (blocks c (units c)).
Qed.

Lemma blocks_app_inv c us1 us2 els :
  blocks c (us1 ++ us2) = Ok els →
  ∃ r1 r2, blocks c us1 = Ok r1 ∧ blocks c us2 = Ok r2 ∧ els = r1 ++ r2.
Proof.
  revert els. induction us1 as [|u us1 IH]; intros els; simpl.
  - intros H. by exists [], els.
  - destruct (block c u) as [b|e]; simpl; [|done].
    destruct (blocks c (us1 ++ us2)) as [r|e] eqn:Hr; simpl; [|done].
    intros [= <-]. destruct (IH r eq_refl) as (r1 & r2 & -> & -> & ->).
    exists (b ++ r1), r2. simpl. by rewrite app_assoc.
Qed.

Lemma blocks_cons_inv c u us els :
  blocks c (u :: us) = Ok els →
  ∃ b r, block c u = Ok b ∧ blocks c us = Ok r ∧ els = b ++ r.
Proof.
  simpl. destruct (block c u) as [b|e]; simpl; [|done].
  destruct (blocks c us) as [r|e]; simpl; [|done].
  intros [= <-]. by exists b, r.
Qed.

Lemma first_match_Some {A} (p : A → bool) (xs : list A) x :
  first_match p xs = Some x → x ∈ xs ∧ p x = true.
Proof.
  induction xs as [|y xs IH]; simpl; [done|].
  destruct (p y) eqn:Hp.
  - intros [= ->]. split; [left|done].
  - intros H. destruct (IH H). split; [by right|done].
Qed.

Lemma first_match_None {A} (p : A → bool) (xs : list A) :
  first_match p xs = None ↔ ∀ x, x ∈ xs → p x = false.
Proof.
  induction xs as [|y xs IH]; simpl.
  - split; [intros _ x Hx; by apply elem_of_nil in Hx|done].
  - destruct (p y) eqn:Hp.
    + split; [done|]. intros H. specialize (H y (list_elem_of_here _ _)).
      congruence.
    + rewrite IH. split.
      * intros H x [->|Hx]%elem_of_cons; auto.
      * intros H x Hx. apply H. by right.
Qed.

Lemma first_match_is_Some {A} (p : A → bool) (xs : list A) x :
  x ∈ xs → p x = true → is_Some (first_match p xs).
Proof.
  intros Hx Hp. destruct (first_match p xs) eqn:Hf; [by eexists|].
  rewrite first_match_None in Hf. specialize (Hf x Hx). congruence.
Qed.

(** With unique identifiers the lookup by id finds the unit itself. *)
Lemma find_unit_by_id_unique c u :
  unique_unit_ids c → u ∈ units c → find_unit_by_id c (unit_id u) = Some u.
Proof.
  unfold unique_unit_ids, find_unit_by_id.
  induction (units c) as [|y us IH]; simpl; intros Hnd Hu.
  - by apply elem_of_nil in Hu.
  - apply NoDup_cons in Hnd as [Hy Hnd]. case_bool_decide as Heq.
    + apply elem_of_cons in Hu as [->|Hu]; [done|].
      exfalso. apply Hy. rewrite Heq. by apply list_elem_of_fmap_2.
    + apply elem_of_cons in Hu as [->|Hu]; [done|]. by apply IH.
Qed.

Lemma find_lesson_by_id_unique c l :
  unique_lesson_ids c → l ∈ lessons c →
  find_lesson_by_id c (lesson_id l) = Some l.
Proof.
  unfold unique_lesson_ids, find_lesson_by_id.
  induction (lessons c) as [|y ls IH]; simpl; intros Hnd Hl.
  - by apply elem_of_nil in Hl.
  - apply NoDup_cons in Hnd as [Hy Hnd]. case_bool_decide as Heq.
    + apply elem_of_cons in Hl as [->|Hl]; [done|].
      exfalso. apply Hy. rewrite Heq. by apply list_elem_of_fmap_2.
    + apply elem_of_cons in Hl as [->|Hl]; [done|]. by apply IH.
Qed.

End traversal.

Section outline.
Implicit Types (c : Course) (u : Unit) (l : Lesson).
Implicit Types (els : list Element) (e : Element).

Lemma nested_spec c r :
  if resolves c r then ∃ b, nested c r = Ok b
  else nested c r = Raise AttributeError.
Proof.
  destruct r as [p|]; simpl; [|by eexists].
  case_bool_decide as H.
  - destruct H as [a ->]. by eexists.
  - destruct (find_unit_by_id c p); [|done]. destruct H. by eexists.
Qed.

Lemma block_spec c u :
  if negb (is_unit u)
     || (resolves c (pre_assessment u) && resolves c (post_assessment u))
  then ∃ b, block c u = Ok b
  else block c u = Raise AttributeError.
Proof.
  unfold block, is_unit, is_assessment.
  destruct (unit_type u); simpl;
    repeat (case_bool_decide; simplify_eq/=); try by eexists.
  all: pose proof (nested_spec c (pre_assessment u)) as Hpre;
       pose proof (nested_spec c (post_assessment u)) as Hpost;
       destruct (resolves c (pre_assessment u)); simpl;
       [destruct Hpre as [b ->]|by rewrite Hpre]; simpl;
       destruct (resolves c (post_assessment u)); simpl;
       [destruct Hpost as [b' ->]; by eexists|by rewrite Hpost].
Qed.

Lemma blocks_spec c us :
  if forallb (λ u, negb (is_unit u)
                   || (resolves c (pre_assessment u)
                       && resolves c (post_assessment u))) us
  then ∃ r, blocks c us = Ok r
  else blocks c us = Raise AttributeError.
Proof.
  induction us as [|u us IH]; simpl; [by eexists|].
  pose proof (block_spec c u) as Hb.
  destruct (negb (is_unit u) || _); simpl.
  - destruct Hb as [b ->]. simpl.
    destruct (forallb _ us).
    + destruct IH as [r ->]. by eexists.
    + by rewrite IH.
  - by rewrite Hb.
Qed.

(** Elements that are not indented come from units the loop did not
    skip. *)
Lemma nested_indent c r b e :
  nested c r = Ok b → e ∈ b → e_indent e = true.
Proof.
  destruct r as [p|]; simpl.
  - destruct (find_unit_by_id c p); [|done].
    intros [= <-] ->%list_elem_of_singleton. done.
  - intros [= <-] H. by apply elem_of_nil in H.
Qed.

Lemma block_toplevel c u b e :
  block c u = Ok b → e ∈ b → e_indent e = false →
  e = unit_element u false
  ∧ is_assessment u && bool_decide (is_Some (get_parent_unit c (unit_id u)))
    = false.
Proof.
  unfold block.
  destruct (is_assessment u && _) eqn:Hskip.
  { intros [= <-] H. by apply elem_of_nil in H. }
  destruct (is_unit u).
  - destruct (nested c (pre_assessment u)) as [pre|] eqn:Hpre; simpl; [|done].
    destruct (nested c (post_assessment u)) as [post|] eqn:Hpost; simpl; [|done].
    intros [= <-] He Hi.
    apply elem_of_cons in He as [->|He]; [done|].
    apply elem_of_app in He as [He|He].
    { apply (nested_indent _ _ _ _ Hpre) in He. congruence. }
    apply elem_of_app in He as [He|He].
    { apply list_elem_of_fmap in He as (l & -> & _). done. }
    apply (nested_indent _ _ _ _ Hpost) in He. congruence.
  - intros [= <-] ->%list_elem_of_singleton _. done.
Qed.

Lemma blocks_toplevel c us els e :
  blocks c us = Ok els → e ∈ els → e_indent e = false →
  ∃ u, u ∈ us ∧ e = unit_element u false
       ∧ is_assessment u
         && bool_decide (is_Some (get_parent_unit c (unit_id u))) = false.
Proof.
  revert els. induction us as [|u us IH]; intros els.
  - intros [= <-] H. by apply elem_of_nil in H.
  - intros (b & r & Hb & Hr & ->)%blocks_cons_inv He Hi.
    apply elem_of_app in He as [He|He].
    + destruct (block_toplevel _ _ _ _ Hb He Hi) as [-> Hs].
      exists u. split; [left|done].
    + destruct (IH _ Hr He Hi) as (u' & Hu' & -> & Hs).
      exists u'. split; [by right|done].
Qed.

(** A referenced assessment is skipped at its own position. *)
Lemma referenced_assessment_hidden c els u a i :
  unique_unit_ids c →
  traverse_course c = Ok els →
  u ∈ units c → refers_to i u = true →
  find_unit_by_id c i = Some a → is_assessment a = true →
  ∀ e, e ∈ els → e_type e = "unit" → e_indent e = false → e_id e ≠ i.
Proof.
  intros Hnd Hels Hu Href Ha Hass e He _ Hi Hid.
  rewrite traverse_course_blocks in Hels.
  destruct (blocks_toplevel _ _ _ _ Hels He Hi) as (u' & Hu' & -> & Hskip).
  simpl in Hid.
  pose proof (find_unit_by_id_unique c u' Hnd Hu') as Hfind.
  rewrite Hid, Ha in Hfind. injection Hfind as ->.
  rewrite Hass, Hid in Hskip. simpl in Hskip.
  apply bool_decide_eq_false in Hskip. apply Hskip.
  unfold get_parent_unit. by apply (first_match_is_Some _ _ u).
Qed.

(** Courses without assessment links. *)
Lemma no_links_no_parent c i :
  no_assessment_links c → get_parent_unit c i = None.
Proof.
  intros Hno. apply first_match_None. intros u Hu.
  unfold no_assessment_links in Hno. rewrite Forall_forall in Hno.
  destruct (Hno u Hu) as [Hpre Hpost].
  unfold refers_to. rewrite Hpre, Hpost. done.
Qed.

Lemma other_units_have_no_lessons c u :
  unique_unit_ids c → lessons_in_plain_units c →
  u ∈ units c → is_unit u = false → get_lessons c (unit_id u) = [].
Proof.
  intros Hnd Hown Hu Hty. unfold get_lessons.
  unfold lessons_in_plain_units in Hown.
  induction (lessons c) as [|l ls IH]; [done|].
  apply Forall_cons in Hown as [Hl Hown].
  rewrite filter_cons. case_decide as Heq; [|by apply IH].
  exfalso. apply Exists_exists in Hl as (u' & Hu' & Hid & Hplain).
  pose proof (find_unit_by_id_unique c u Hnd Hu) as H1.
  pose proof (find_unit_by_id_unique c u' Hnd Hu') as H2.
  rewrite Hid, Heq, H1 in H2. simplify_eq. congruence.
Qed.

Lemma blocks_plain c us :
  no_assessment_links c → unique_unit_ids c → lessons_in_plain_units c →
  (∀ u, u ∈ us → u ∈ units c) →
  blocks c us
  = Ok (concat ((λ u, unit_element u false
                        :: (lesson_element <$> get_lessons c (unit_id u)))
                <$> us)).
Proof.
  intros Hno Hnd Hown. induction us as [|u us IH]; intros Hsub; [done|].
  simpl. rewrite IH by (intros; apply Hsub; by right). clear IH.
  assert (Hu : u ∈ units c) by (apply Hsub; left).
  unfold no_assessment_links in Hno. rewrite Forall_forall in Hno.
  destruct (Hno u Hu) as [Hpre Hpost].
  unfold block. rewrite no_links_no_parent by (by apply Forall_forall).
  rewrite andb_false_r.
  destruct (is_unit u) eqn:Hty.
  - rewrite Hpre, Hpost. simpl. by rewrite app_nil_r.
  - rewrite other_units_have_no_lessons by done. done.
Qed.

Lemma lessons_partition (ids : list ident) (ls : list Lesson) :
  NoDup ids → Forall (λ l, lesson_unit_id l ∈ ids) ls →
  concat ((λ i, filter (λ l, lesson_unit_id l = i) ls) <$> ids) ≡ₚ ls.
Proof.
  revert ls. induction ids as [|i ids IH]; intros ls Hnd Hin.
  - destruct ls as [|l ls]; [done|].
    apply Forall_cons in Hin as [Hl _]. by apply elem_of_nil in Hl.
  - apply NoDup_cons in Hnd as [Hi Hnd]. simpl.
    transitivity (filter (λ l, lesson_unit_id l = i) ls
                  ++ filter (λ l, ¬ lesson_unit_id l = i) ls);
      [|apply filter_app_complement].
    apply Permutation_app_head.
    rewrite <- (IH (filter (λ l, ¬ lesson_unit_id l = i) ls)); [|done|].
    + apply reflexive_eq. f_equal. apply list_fmap_ext.
      intros k j Hj%list_elem_of_lookup_2. rewrite list_filter_filter.
      apply list_filter_iff. intros l. split; [|by intros []].
      intros ->. split; [done|]. by intros ->.
    + apply Forall_forall. intros l [Hne Hl]%list_elem_of_filter.
      rewrite Forall_forall in Hin.
      specialize (Hin l Hl). apply elem_of_cons in Hin as [?|?]; done.
Qed.

End outline.

(** ** Claims about the read side *)

(** C10: [traverse_course] returns an outline exactly when every pre- and
    post-assessment reference held by a plain unit names a unit of the
    course; otherwise the lookup gives [None], reading the attributes of
    the missing unit raises AttributeError, and nothing is skipped. The
    course [dangling_course] is one where this happens. *)
Theorem C10_traverse_course_needs_resolving_refs :
  (∀ c, refs_resolve c = true ↔ ∃ els, traverse_course c = Ok els)
  ∧ (∀ c, refs_resolve c = false ↔ traverse_course c = Raise AttributeError)
  ∧ refs_resolve dangling_course = false
  ∧ traverse_course dangling_course = Raise AttributeError.
Proof.
  assert (Hspec : ∀ c, if refs_resolve c then ∃ els, traverse_course c = Ok els
                       else traverse_course c = Raise AttributeError).
  { intros c. rewrite traverse_course_blocks. apply blocks_spec. }
  split; [|split; [|split; reflexivity]].
  - intros c. specialize (Hspec c). destruct (refs_resolve c).
    + by split.
    + split; [done|]. intros [els Hels]. congruence.
  - intros c. specialize (Hspec c). destruct (refs_resolve c).
    + split; [done|]. destruct Hspec as [els Hels]. congruence.
    + by split.
Qed.

(** C2: in a course that [traverse_course] flattens, a plain unit with a
    pre-assessment and a post-assessment contributes, as one contiguous
    run, its own element (not indented), the pre-assessment (indented),
    its lessons in stored order (indented) and the post-assessment
    (indented); with unique unit identifiers, the two referenced
    assessments do not show up as elements of their own that are not
    indented. *)
Theorem C2_unit_with_pre_and_post_assessment
    (c : Course) (els : list Element) (u pu qu : Unit) (p q : ident) :
  traverse_course c = Ok els →
  u ∈ units c →
  is_unit u = true →
  pre_assessment u = Some p →
  post_assessment u = Some q →
  find_unit_by_id c p = Some pu →
  find_unit_by_id c q = Some qu →
  (∃ before after,
      els = before
            ++ [unit_element u false; unit_element pu true]
            ++ (lesson_element <$> get_lessons c (unit_id u))
            ++ [unit_element qu true]
            ++ after)
  ∧ (unique_unit_ids c → is_assessment pu = true → is_assessment qu = true →
     ∀ e, e ∈ els → e_type e = "unit" → e_indent e = false →
          e_id e ≠ p ∧ e_id e ≠ q).
Proof.
  intros Hels Hu Hplain Hpre Hpost Hp Hq. split.
  - rewrite traverse_course_blocks in Hels.
    apply list_elem_of_split in Hu as (us1 & us2 & Hsplit).
    rewrite Hsplit in Hels.
    apply blocks_app_inv in Hels as (r1 & r2 & _ & Hr2 & ->).
    apply blocks_cons_inv in Hr2 as (b & r & Hb & _ & ->).
    exists r1, r. f_equal.
    unfold block in Hb. unfold is_unit, is_assessment in *.
    apply bool_decide_eq_true in Hplain. rewrite Hplain in Hb. simpl in Hb.
    rewrite Hpre, Hpost in Hb. simpl in Hb. rewrite Hp, Hq in Hb.
    simpl in Hb. injection Hb as <-. simpl. by rewrite <- !app_assoc.
  - intros Hnd Hpa Hqa e He Hty Hi. split.
    + eapply (referenced_assessment_hidden c els u pu p); try done.
      unfold refers_to. rewrite Hpre. by rewrite bool_decide_eq_true_2.
    + eapply (referenced_assessment_hidden c els u qu q); try done.
      unfold refers_to. rewrite Hpost.
      rewrite (bool_decide_eq_true_2 (Some q = Some q)) by done.
      apply orb_true_r.
Qed.

Lemma C2_sample_course_outline :
  (∃ before after,
      sample_outline
      = before
        ++ [unit_element sample_unit false; unit_element sample_pre true]
        ++ (lesson_element <$> get_lessons sample_course 1)
        ++ [unit_element sample_post true]
        ++ after)
  ∧ (∀ e, e ∈ sample_outline → e_type e = "unit" → e_indent e = false →
          e_id e ≠ 2%positive ∧ e_id e ≠ 3%positive).
Proof.
  destruct (C2_unit_with_pre_and_post_assessment
              sample_course sample_outline sample_unit sample_pre sample_post
              2 3 eq_refl) as [Hrun Hhidden]; try reflexivity.
  - right. left.
  - split; [exact Hrun|]. apply Hhidden; try reflexivity.
    unfold unique_unit_ids. simpl. apply (bool_decide_unpack _); vm_compute; exact I.
Defined.

(** C7, as the code has it: in a course with unique unit identifiers
    where no unit carries a pre- or post-assessment reference and every
    lesson belongs to a plain unit, [traverse_course] lists every unit in
    stored order, each followed by its lessons in stored lesson order;
    there are as many elements as units and lessons together, unit
    elements are not indented and lesson elements are. *)
Theorem C7_outline_without_assessment_links (c : Course) :
  no_assessment_links c →
  unique_unit_ids c →
  lessons_in_plain_units c →
  traverse_course c = Ok (plain_outline c)
  ∧ length (plain_outline c) = length (units c) + length (lessons c)
  ∧ filter (λ e, e_type e = "unit") (plain_outline c)
    = (λ u, unit_element u false) <$> units c
  ∧ filter (λ e, e_type e = "lesson") (plain_outline c)
    ≡ₚ lesson_element <$> lessons c
  ∧ Forall (λ e, (e_type e = "unit" ∧ e_indent e = false)
                 ∨ (e_type e = "lesson" ∧ e_indent e = true))
           (plain_outline c).
Proof.
  intros Hno Hnd Hown.
  assert (Hperm : concat ((λ u, get_lessons c (unit_id u)) <$> units c)
                  ≡ₚ lessons c).
  { pose proof (lessons_partition (unit_id <$> units c) (lessons c) Hnd) as H.
    rewrite <- list_fmap_compose in H. apply H.
    unfold lessons_in_plain_units in Hown.
    eapply Forall_impl; [exact Hown|]. intros l Hl. simpl in Hl.
    apply Exists_exists in Hl as (u & Hu & <- & _).
    by apply list_elem_of_fmap_2. }
  assert (Hunits : ∀ us, filter (λ e, e_type e = "unit")
            (concat ((λ u, unit_element u false
                       :: (lesson_element <$> get_lessons c (unit_id u)))
                     <$> us))
          = (λ u, unit_element u false) <$> us).
  { induction us as [|u us IH]; [done|].
    rewrite !fmap_cons. cbn [concat]. rewrite <- app_comm_cons.
    rewrite filter_cons_True by done. rewrite filter_app, IH. f_equal.
    induction (get_lessons c (unit_id u)) as [|l ls IHl]; [done|].
    rewrite fmap_cons, filter_cons_False by done. apply IHl. }
  assert (Hlessons : ∀ us, filter (λ e, e_type e = "lesson")
            (concat ((λ u, unit_element u false
                       :: (lesson_element <$> get_lessons c (unit_id u)))
                     <$> us))
          = lesson_element
              <$> concat ((λ u, get_lessons c (unit_id u)) <$> us)).
  { induction us as [|u us IH]; [done|].
    rewrite !fmap_cons. cbn [concat]. rewrite <- app_comm_cons.
    rewrite filter_cons_False by done. rewrite filter_app, IH, fmap_app.
    f_equal.
    induction (get_lessons c (unit_id u)) as [|l ls IHl]; [done|].
    rewrite fmap_cons, filter_cons_True by done. by rewrite IHl. }
  assert (Hlen : ∀ us, length
            (concat ((λ u, unit_element u false
                       :: (lesson_element <$> get_lessons c (unit_id u)))
                     <$> us))
          = length us
            + length (concat ((λ u, get_lessons c (unit_id u)) <$> us))).
  { induction us as [|u us IH]; [done|].
    rewrite !fmap_cons. cbn [concat]. rewrite <- app_comm_cons.
    cbn [length]. rewrite !length_app, length_fmap, IH. lia. }
  split; [|split; [|split; [|split]]].
  - rewrite traverse_course_blocks. by apply blocks_plain.
  - unfold plain_outline. rewrite Hlen. by rewrite Hperm.
  - apply Hunits.
  - unfold plain_outline. rewrite Hlessons. by rewrite Hperm.
  - unfold plain_outline. clear. generalize (units c). intros us.
    induction us as [|u us IH]; [constructor|].
    rewrite fmap_cons. cbn [concat]. rewrite <- app_comm_cons.
    constructor; [by left|]. apply Forall_app. split; [|exact IH].
    apply Forall_fmap, Forall_true. intros l. by right.
Qed.

Lemma C7_plain_course_outline :
  traverse_course plain_course = Ok (plain_outline plain_course)
  ∧ length (plain_outline plain_course) = 5.
Proof.
  destruct (C7_outline_without_assessment_links plain_course) as (H1 & H2 & _).
  - unfold no_assessment_links. simpl. repeat constructor.
  - unfold unique_unit_ids. simpl. apply (bool_decide_unpack _); vm_compute; exact I.
  - unfold lessons_in_plain_units. simpl. apply (bool_decide_unpack _); vm_compute; exact I.
  - split; [exact H1|exact H2].
Defined.

(** Counterexample to C7 as stated: a standalone assessment that owns a
    lesson has no assessment links, yet its lesson is not listed. *)
Lemma C7_assessment_lesson_not_listed :
  no_assessment_links assessment_with_lesson
  ∧ unique_unit_ids assessment_with_lesson
  ∧ unique_lesson_ids assessment_with_lesson
  ∧ ∃ els, traverse_course assessment_with_lesson = Ok els
           ∧ length els
             ≠ length (units assessment_with_lesson)
               + length (lessons assessment_with_lesson).
Proof.
  split; [|split; [|split]].
  - unfold no_assessment_links. simpl. repeat constructor.
  - unfold unique_unit_ids. simpl. apply NoDup_singleton.
  - unfold unique_lesson_ids. simpl. apply NoDup_singleton.
  - eexists. split; [reflexivity|]. simpl. lia.
Qed.

(** * Properties of the write side *)

Section merge.
Implicit Types (c : Course) (u : Unit) (l : Lesson) (w : World).
Implicit Types (it : Item) (items : list Item) (r : Request).

Lemma modify_first_find {A} (p : A → bool) (f : A → A) (xs : list A) :
  modify_first p f xs
  = match first_match p xs with
    | Some x => replace_first p (f x) xs
    | None => xs
    end.
Proof.
  induction xs as [|y xs IH]; simpl; [done|].
  destruct (p y); [done|]. rewrite IH.
  by destruct (first_match p xs).
Qed.

Lemma assign_unit_id it u : unit_id (assign_unit it u) = unit_id u.
Proof.
  unfold assign_unit.
  by destruct (it_availability it), (it_shown_when_unavailable it).
Qed.

Lemma assign_lesson_id it l : lesson_id (assign_lesson it l) = lesson_id l.
Proof.
  unfold assign_lesson.
  by destruct (it_availability it), (it_shown_when_unavailable it).
Qed.

(** The loop body, read as a function of the course. *)
Lemma put_item_effect it w :
  put_item it w
  = match item_error it with
    | Some e => (Raise e, w)
    | None => (Ok tt, mkWorld (item_effect it (w_course w))
                              (w_settings w) (w_calls w))
    end.
Proof.
  destruct w as [c s calls]. unfold put_item, item_error, item_effect.
  destruct (it_type it) as [ty|]; simpl; [|done].
  unfold mbind, M_bind, mret, M_ret; simpl.
  case_bool_decide as Hu; simpl.
  - destruct (it_id it) as [i|]; simpl; [|done].
    rewrite modify_first_find. unfold find_unit_by_id.
    destruct (first_match _ (units c)) as [x|] eqn:Hx; simpl.
    + unfold modify_course, store_unit. simpl.
      apply first_match_Some in Hx as [_ Hid].
      apply bool_decide_eq_true in Hid.
      by rewrite assign_unit_id, Hid.
    + by destruct c.
  - case_bool_decide as Hl; simpl; [|done].
    destruct (it_id it) as [i|]; simpl; [|done].
    rewrite modify_first_find. unfold find_lesson_by_id.
    destruct (first_match _ (lessons c)) as [x|] eqn:Hx; simpl.
    + unfold modify_course, store_lesson. simpl.
      apply first_match_Some in Hx as [_ Hid].
      apply bool_decide_eq_true in Hid.
      by rewrite assign_lesson_id, Hid.
    + by destruct c.
Qed.

Lemma for_each_put_item items w :
  for_each items put_item w
  = (match first_error items with
     | Some e => Raise e
     | None => Ok tt
     end,
     mkWorld (run_effects (ok_prefix items) (w_course w))
             (w_settings w) (w_calls w)).
Proof.
  revert w. induction items as [|it items IH]; intros w; simpl.
  - by destruct w.
  - unfold mbind, M_bind. rewrite put_item_effect.
    destruct (item_error it) as [e|]; simpl.
    + by destruct w.
    + by rewrite IH.
Qed.

Lemma put_authorized r w :
  authorized r = true → put r w = merged r w.
Proof.
  unfold authorized, put, merged. intros [-> ->]%andb_true_iff. simpl.
  destruct w as [c s calls]. destruct r as [x a [wl sh ca items]]. simpl.
  unfold merge_settings, apply_policy, policy_calls. simpl.
  unfold mbind, M_bind, mret, M_ret, modify_settings, save_settings,
    set_course_availability, modify_course, call, save,
    send_json_response. simpl.
  repeat case_bool_decide; simpl;
    destruct (py_truthy (dict_get ca)); simpl;
    unfold mbind, M_bind; simpl;
    rewrite for_each_put_item; simpl;
    destruct (first_error (default [] items)); simpl;
    unfold call; simpl; rewrite <- ?app_assoc; simpl; try done;
    by destruct c.
Qed.

Lemma put_unauthorized r w :
  authorized r = false →
  (put r w).1 = Ok tt
  ∧ w_course (put r w).2 = w_course w
  ∧ w_settings (put r w).2 = w_settings w
  ∧ filter (λ k, is_save_settings_call k ∨ is_save_call k
                 ∨ is_setter_call k) (w_calls (put r w).2)
    = filter (λ k, is_save_settings_call k ∨ is_save_call k
                   ∨ is_setter_call k) (w_calls w).
Proof.
  unfold authorized, put. destruct (xsrf_ok r); simpl; [|done].
  intros ->. simpl. repeat split.
  rewrite filter_app. rewrite filter_cons_False; [by rewrite app_nil_r|].
  simpl. intros [?|[?|?]]; done.
Qed.

End merge.

(** Overwrites absorb their own repetition: a family of state changes in
    which doing [a], then [b], then [a] again is doing [b], then [a]. *)
Section absorb.
Context {S I : Type} (T : I → S → S).
Hypothesis T_absorb : ∀ a b s, T a (T b (T a s)) = T a (T b s).
Hypothesis T_idem : ∀ a s, T a (T a s) = T a s.

Lemma absorb_word a (y : list I) s :
  T a (foldl (λ s b, T b s) (T a s) y) = T a (foldl (λ s b, T b s) s y).
Proof.
  revert s. induction y as [|b y IH]; intros s; simpl.
  - apply T_idem.
  - rewrite <- (IH (T b (T a s))), <- (IH (T b s)).
    by rewrite T_absorb.
Qed.

Lemma absorb_words (x y : list I) s :
  foldl (λ s b, T b s) (foldl (λ s b, T b s) (foldl (λ s b, T b s) s x) y) x
  = foldl (λ s b, T b s) (foldl (λ s b, T b s) s y) x.
Proof.
  revert y s. induction x as [|a x IH]; intros y s; simpl; [done|].
  pose proof (IH (y ++ [a]) (T a s)) as H.
  rewrite !foldl_app in H. simpl in H. rewrite H.
  by rewrite absorb_word.
Qed.

Lemma foldl_twice (x : list I) s :
  foldl (λ s b, T b s) (foldl (λ s b, T b s) s x) x
  = foldl (λ s b, T b s) s x.
Proof. apply (absorb_words x [] s). Qed.

End absorb.

Section effects.
Implicit Types (c : Course) (u : Unit) (l : Lesson) (w : World).
Implicit Types (it : Item) (items : list Item) (r : Request).

Lemma modify_first_fmap {A B} (g : A → B) (p : A → bool) (f : A → A)
    (xs : list A) :
  (∀ x, g (f x) = g x) → g <$> modify_first p f xs = g <$> xs.
Proof.
  intros Hg. induction xs as [|y xs IH]; [done|]. cbn [modify_first].
  destruct (p y); rewrite !fmap_cons; [by rewrite Hg|by rewrite IH].
Qed.

Lemma modify_first_None {A} (p : A → bool) (f : A → A) (xs : list A) :
  first_match p xs = None → modify_first p f xs = xs.
Proof. intros H. by rewrite modify_first_find, H. Qed.

Lemma modify_first_fixed {A} (p : A → bool) (f : A → A) (xs : list A) x :
  first_match p xs = Some x → f x = x → modify_first p f xs = xs.
Proof.
  induction xs as [|y xs IH]; simpl; [done|].
  destruct (p y).
  - intros [= ->] ->. done.
  - intros H1 H2. by rewrite IH.
Qed.

Lemma modify_first_twice {A} (p : A → bool) (f : A → A) (xs : list A) :
  (∀ x, p (f x) = p x) → (∀ x, f (f x) = f x) →
  modify_first p f (modify_first p f xs) = modify_first p f xs.
Proof.
  intros Hp Hf. induction xs as [|y xs IH]; simpl; [done|].
  destruct (p y) eqn:Hy; simpl.
  - by rewrite Hp, Hy, Hf.
  - by rewrite Hy, IH.
Qed.

Lemma modify_first_absorb {A} (p q : A → bool) (f g : A → A) (xs : list A) :
  (∀ x, p (f x) = p x) → (∀ x, p (g x) = p x) → (∀ x, q (f x) = q x) →
  (∀ x, f (f x) = f x) → (∀ x, f (g (f x)) = f (g x)) →
  modify_first p f (modify_first q g (modify_first p f xs))
  = modify_first p f (modify_first q g xs).
Proof.
  intros Hpf Hpg Hqf Hff Hfgf. induction xs as [|y xs IH]; simpl; [done|].
  destruct (p y) eqn:Hp, (q y) eqn:Hq; simpl.
  all: repeat (rewrite ?Hqf, ?Hpg, ?Hpf, ?Hp, ?Hq; simpl).
  - by rewrite Hfgf.
  - by rewrite Hff.
  - by rewrite modify_first_twice.
  - by rewrite IH.
Qed.

Lemma first_match_by_key_None {A} (g : A → ident) (i : ident) (xs : list A) :
  first_match (λ x, bool_decide (g x = i)) xs = None ↔ i ∉ g <$> xs.
Proof.
  rewrite first_match_None. split.
  - intros H (x & -> & Hx)%list_elem_of_fmap.
    specialize (H x Hx). by apply bool_decide_eq_false in H.
  - intros H x Hx. apply bool_decide_eq_false. intros <-.
    apply H. by apply list_elem_of_fmap_2.
Qed.

Lemma assign_unit_absorb a b u :
  assign_unit a (assign_unit b (assign_unit a u))
  = assign_unit a (assign_unit b u).
Proof.
  unfold assign_unit.
  by destruct (it_availability a), (it_shown_when_unavailable a),
    (it_availability b), (it_shown_when_unavailable b).
Qed.

Lemma assign_unit_twice a u :
  assign_unit a (assign_unit a u) = assign_unit a u.
Proof.
  unfold assign_unit.
  by destruct (it_availability a), (it_shown_when_unavailable a).
Qed.

Lemma assign_lesson_absorb a b l :
  assign_lesson a (assign_lesson b (assign_lesson a l))
  = assign_lesson a (assign_lesson b l).
Proof.
  unfold assign_lesson.
  by destruct (it_availability a), (it_shown_when_unavailable a),
    (it_availability b), (it_shown_when_unavailable b).
Qed.

Lemma assign_lesson_twice a l :
  assign_lesson a (assign_lesson a l) = assign_lesson a l.
Proof.
  unfold assign_lesson.
  by destruct (it_availability a), (it_shown_when_unavailable a).
Qed.

(** The shape of [item_effect]: nothing, a change of the units, or a
    change of the lessons. *)
Lemma item_effect_cases it :
  (∀ c, item_effect it c = c)
  ∨ (∃ i, ∀ c, item_effect it c
               = mkCourse (modify_first (λ u, bool_decide (unit_id u = i))
                                        (assign_unit it) (units c))
                          (lessons c) (course_availability c))
  ∨ (∃ i, ∀ c, item_effect it c
               = mkCourse (units c)
                          (modify_first (λ l, bool_decide (lesson_id l = i))
                                        (assign_lesson it) (lessons c))
                          (course_availability c)).
Proof.
  unfold item_effect.
  destruct (it_type it) as [ty|]; [|by left].
  destruct (it_id it) as [i|]; [|by left].
  case_bool_decide; [right; left; by exists i|].
  case_bool_decide; [right; right; by exists i|by left].
Qed.

Lemma item_effect_twice a c : item_effect a (item_effect a c) = item_effect a c.
Proof.
  destruct (item_effect_cases a) as [H|[[i H]|[i H]]]; rewrite !H; [done|..];
    simpl; f_equal; apply modify_first_twice; intros x;
    by rewrite ?assign_unit_id, ?assign_lesson_id,
               ?assign_unit_twice, ?assign_lesson_twice.
Qed.

Lemma item_effect_absorb a b c :
  item_effect a (item_effect b (item_effect a c))
  = item_effect a (item_effect b c).
Proof.
  destruct (item_effect_cases a) as [Ha|[[i Ha]|[i Ha]]];
    destruct (item_effect_cases b) as [Hb|[[j Hb]|[j Hb]]];
    rewrite ?Ha, ?Hb, ?Ha; try done; simpl; f_equal;
    try (apply modify_first_twice; intros x;
         by rewrite ?assign_unit_id, ?assign_lesson_id,
                    ?assign_unit_twice, ?assign_lesson_twice);
    apply modify_first_absorb; intros x;
    by rewrite ?assign_unit_id, ?assign_lesson_id,
               ?assign_unit_twice, ?assign_lesson_twice,
               ?assign_unit_absorb, ?assign_lesson_absorb.
Qed.

Lemma run_effects_twice items c :
  run_effects items (run_effects items c) = run_effects items c.
Proof.
  unfold run_effects.
  apply (foldl_twice item_effect item_effect_absorb item_effect_twice).
Qed.

(** Entries change neither the identifiers nor the policy. *)
Lemma item_effect_frame it c :
  unit_id <$> units (item_effect it c) = unit_id <$> units c
  ∧ lesson_id <$> lessons (item_effect it c) = lesson_id <$> lessons c
  ∧ course_availability (item_effect it c) = course_availability c.
Proof.
  destruct (item_effect_cases it) as [H|[[i H]|[i H]]]; rewrite !H; simpl;
    repeat split; apply modify_first_fmap; intros x;
    by rewrite ?assign_unit_id, ?assign_lesson_id.
Qed.

Lemma run_effects_frame items c :
  unit_id <$> units (run_effects items c) = unit_id <$> units c
  ∧ lesson_id <$> lessons (run_effects items c) = lesson_id <$> lessons c
  ∧ course_availability (run_effects items c) = course_availability c.
Proof.
  unfold run_effects. revert c.
  induction items as [|it items IH]; intros c; simpl; [done|].
  destruct (IH (item_effect it c)) as (-> & -> & ->).
  apply item_effect_frame.
Qed.

(** Entries do not read the policy. *)
Lemma item_effect_policy it c v :
  item_effect it (mkCourse (units c) (lessons c) v)
  = mkCourse (units (item_effect it c)) (lessons (item_effect it c)) v.
Proof.
  destruct (item_effect_cases it) as [H|[[i H]|[i H]]]; by rewrite !H.
Qed.

Lemma run_effects_policy items c v :
  run_effects items (mkCourse (units c) (lessons c) v)
  = mkCourse (units (run_effects items c)) (lessons (run_effects items c)) v.
Proof.
  unfold run_effects. revert c.
  induction items as [|it items IH]; intros c; simpl; [done|].
  by rewrite item_effect_policy, IH.
Qed.

Lemma run_effects_apply_policy p items c :
  run_effects items (apply_policy p c)
  = apply_policy p (run_effects items c).
Proof.
  unfold apply_policy.
  destruct (py_truthy _); [|done]. apply run_effects_policy.
Qed.

Lemma apply_policy_twice p c :
  apply_policy p (apply_policy p c) = apply_policy p c.
Proof. unfold apply_policy. by destruct (py_truthy _). Qed.

Lemma apply_policy_frame p c :
  units (apply_policy p c) = units c ∧ lessons (apply_policy p c) = lessons c.
Proof. unfold apply_policy. by destruct (py_truthy _). Qed.

Lemma merge_settings_twice p s :
  merge_settings p (merge_settings p s) = merge_settings p s.
Proof.
  unfold merge_settings, set_reg_form, set_course_dict.
  repeat case_bool_decide; simpl; by rewrite ?insert_insert_eq.
Qed.

End effects.

Section entries.
Implicit Types (c : Course) (u : Unit) (l : Lesson) (w : World).
Implicit Types (it : Item) (items : list Item) (r : Request).
Implicit Types (e : Element) (els : list Element).

(** Entries of a bad type. *)
Lemma bad_type_error it : bad_type it → item_error it = Some ValueError.
Proof.
  intros (ty & Hty & Hu & Hl). unfold item_error. rewrite Hty.
  by rewrite !bool_decide_eq_false_2.
Qed.

Lemma first_error_Exists items :
  Exists (λ it, is_Some (item_error it)) items → is_Some (first_error items).
Proof.
  induction 1 as [it items [e He]|it items _ IH]; simpl.
  - rewrite He. by eexists.
  - destruct (item_error it); [by eexists|done].
Qed.

Lemma first_error_with_keys items (e : exn) :
  Forall (λ it, is_Some (it_type it) ∧ is_Some (it_id it)) items →
  first_error items = Some e → e = ValueError.
Proof.
  induction 1 as [|it items [[ty Hty] [i Hi]] _ IH]; simpl; [done|].
  unfold item_error. rewrite Hty, Hi.
  destruct (bool_decide _ || bool_decide _); [done|]. by intros [= <-].
Qed.

Lemma first_error_well_formed items :
  Forall well_formed items → first_error items = None.
Proof.
  induction 1 as [|it items [Hty [i Hi]] _ IH]; simpl; [done|].
  unfold item_error. rewrite Hi. by destruct Hty as [-> | ->].
Qed.

(** Entries whose target is missing. *)
Lemma unresolved_no_error c it : unresolved c it → item_error it = None.
Proof.
  intros (i & Hi & [[Hty _]|[Hty _]]); unfold item_error;
    by rewrite Hty, Hi.
Qed.

Lemma unresolved_no_effect c c' it :
  unresolved c it →
  unit_id <$> units c' = unit_id <$> units c →
  lesson_id <$> lessons c' = lesson_id <$> lessons c →
  item_effect it c' = c'.
Proof.
  intros (i & Hi & [[Hty Hnone]|[Hty Hnone]]) Hus Hls;
    unfold item_effect; rewrite Hty, Hi; simpl.
  - unfold find_unit_by_id in Hnone.
    apply first_match_by_key_None in Hnone. rewrite <- Hus in Hnone.
    apply first_match_by_key_None in Hnone.
    rewrite modify_first_None by done. by destruct c'.
  - unfold find_lesson_by_id in Hnone.
    apply first_match_by_key_None in Hnone. rewrite <- Hls in Hnone.
    apply first_match_by_key_None in Hnone.
    rewrite modify_first_None by done. by destruct c'.
Qed.

Lemma first_error_skip pre it post :
  item_error it = None →
  first_error (pre ++ it :: post) = first_error (pre ++ post).
Proof.
  intros Hit. induction pre as [|a pre IH]; simpl.
  - by rewrite Hit.
  - by destruct (item_error a).
Qed.

Lemma run_effects_skip c pre it post c0 :
  unresolved c it →
  unit_id <$> units c0 = unit_id <$> units c →
  lesson_id <$> lessons c0 = lesson_id <$> lessons c →
  run_effects (ok_prefix (pre ++ it :: post)) c0
  = run_effects (ok_prefix (pre ++ post)) c0.
Proof.
  intros Hit. revert c0. induction pre as [|a pre IH]; intros c0 Hus Hls.
  - simpl. rewrite (unresolved_no_error c it Hit). unfold run_effects.
    simpl. by rewrite (unresolved_no_effect c c0 it).
  - simpl. destruct (item_error a); [done|]. unfold run_effects. simpl.
    apply IH.
    + destruct (item_effect_frame a c0) as (-> & _ & _). done.
    + destruct (item_effect_frame a c0) as (_ & -> & _). done.
Qed.

(** Elements of the outline, sent back. *)
Lemma echoes_no_error c e : echoes c e → item_error (item_of_element e) = None.
Proof.
  intros [[Hty _]|[Hty _]]; unfold item_error; simpl; by rewrite Hty.
Qed.

Lemma echoes_no_effect c c' e :
  echoes c e → units c' = units c → lessons c' = lessons c →
  item_effect (item_of_element e) c' = c'.
Proof.
  intros [[Hty (u & Hu & Ha & Hs)]|[Hty (l & Hl & Ha & Hs)]] Hus Hls;
    unfold item_effect; simpl; rewrite Hty; simpl.
  - rewrite (modify_first_fixed _ _ _ u).
    + by destruct c'.
    + by rewrite Hus.
    + unfold assign_unit. simpl. rewrite Ha, Hs. by destruct u.
  - rewrite (modify_first_fixed _ _ _ l).
    + by destruct c'.
    + by rewrite Hls.
    + unfold assign_lesson. simpl. rewrite Ha, Hs. by destruct l.
Qed.

Lemma echoes_run c c' els :
  Forall (echoes c) els → units c' = units c → lessons c' = lessons c →
  first_error (item_of_element <$> els) = None
  ∧ run_effects (ok_prefix (item_of_element <$> els)) c' = c'.
Proof.
  intros Hall Hus Hls. induction Hall as [|e els He _ IH]; [done|].
  rewrite fmap_cons. simpl. rewrite (echoes_no_error c e He).
  unfold run_effects in *. simpl.
  by rewrite (echoes_no_effect c c' e).
Qed.

Lemma unit_element_echoes c u indent :
  find_unit_by_id c (unit_id u) = Some u → echoes c (unit_element u indent).
Proof. intros H. left. split; [done|]. by exists u. Qed.

Lemma nested_echoes c p b :
  nested c p = Ok b → Forall (echoes c) b.
Proof.
  destruct p as [i|]; simpl; [|intros [= <-]; constructor].
  destruct (find_unit_by_id c i) as [a|] eqn:Ha; [|done].
  intros [= <-]. constructor; [|constructor].
  apply unit_element_echoes.
  unfold find_unit_by_id in Ha.
  pose proof (first_match_Some _ _ _ Ha) as [_ Hid].
  apply bool_decide_eq_true in Hid. by rewrite Hid.
Qed.

Lemma block_echoes c u b :
  unique_unit_ids c → unique_lesson_ids c → u ∈ units c →
  block c u = Ok b → Forall (echoes c) b.
Proof.
  intros Hnu Hnl Hu. unfold block.
  destruct (is_assessment u && _); [intros [= <-]; constructor|].
  pose proof (unit_element_echoes c u false
                (find_unit_by_id_unique c u Hnu Hu)) as Hself.
  destruct (is_unit u); [|intros [= <-]; constructor; [done|constructor]].
  destruct (nested c (pre_assessment u)) as [pre|] eqn:Hpre; simpl; [|done].
  destruct (nested c (post_assessment u)) as [post|] eqn:Hpost; simpl; [|done].
  intros [= <-]. constructor; [done|].
  apply Forall_app. split; [by eapply nested_echoes|].
  apply Forall_app. split; [|by eapply nested_echoes].
  apply Forall_fmap, Forall_forall. intros l [_ Hl]%list_elem_of_filter.
  right. split; [done|]. exists l. split; [|done].
  by apply find_lesson_by_id_unique.
Qed.

Lemma blocks_echoes c us els :
  unique_unit_ids c → unique_lesson_ids c → (∀ u, u ∈ us → u ∈ units c) →
  blocks c us = Ok els → Forall (echoes c) els.
Proof.
  intros Hnu Hnl. revert els. induction us as [|u us IH]; intros els Hsub.
  - intros [= <-]. constructor.
  - intros (b & r & Hb & Hr & ->)%blocks_cons_inv. apply Forall_app. split.
    + eapply block_echoes; try done. apply Hsub. left.
    + apply IH; [|done]. intros u' Hu'. apply Hsub. by right.
Qed.

End entries.

(** ** Claims about the write side *)

(** C1, as the code has it: when both access checks pass and some entry
    of [element_settings] has a type that is neither "unit" nor "lesson",
    [put] raises; it is ValueError when every entry has its "type" and
    "id" keys. By then the settings have been saved (and the course
    availability set, if the payload asked for it), and nothing else has
    been called: the unit and lesson tree has not been saved. *)
Theorem C1_bad_type_aborts_before_tree_save
    (r : Request) (w : World) (items : list Item) :
  authorized r = true →
  p_element_settings (payload r) = Some items →
  Exists bad_type items →
  ∃ e, (put r w).1 = Raise e
       ∧ (Forall (λ it, is_Some (it_type it) ∧ is_Some (it_id it)) items →
          e = ValueError)
       ∧ w_calls (put r w).2
         = w_calls w
           ++ SaveSettings (w_settings (put r w).2) :: policy_calls (payload r)
       ∧ filter (λ k, is_save_call k) (w_calls (put r w).2)
         = filter (λ k, is_save_call k) (w_calls w).
Proof.
  intros Hauth Hitems Hbad. rewrite (put_authorized r w Hauth).
  unfold merged. rewrite Hitems. simpl.
  destruct (first_error_Exists items) as [e He].
  { eapply Exists_impl; [exact Hbad|]. intros it Hit.
    rewrite (bad_type_error it Hit). by eexists. }
  rewrite He. exists e. simpl. split; [done|]. split.
  { intros Hkeys. by eapply first_error_with_keys. }
  split; [done|].
  rewrite filter_app. rewrite filter_cons_False by (simpl; tauto).
  unfold policy_calls. destruct (py_truthy _).
  - rewrite filter_cons_False by (simpl; tauto). by rewrite app_nil_r.
  - by rewrite app_nil_r.
Qed.

Lemma C1_section_request_aborts :
  (put section_request sample_world).1 = Raise ValueError
  ∧ w_calls (put section_request sample_world).2 = [SaveSettings sample_settings].
Proof.
  destruct (C1_bad_type_aborts_before_tree_save section_request sample_world
              [mkItem (Some (PStr "section")) (Some 1%positive)
                      (Some (PStr "public")) None]
              eq_refl eq_refl) as (e & He & Hval & Hcalls & _).
  - left. exists (PStr "section"). repeat split; discriminate.
  - split.
    + rewrite He. f_equal. apply Hval.
      constructor; [|constructor]. split; by eexists.
    + rewrite Hcalls. reflexivity.
Defined.

(** Counterexample to C1 as stated: for a payload with one entry of type
    "section", starting with no call made, the settings save is in the
    list of calls when ValueError is raised. *)
Lemma C1_settings_saved_before_error :
  (put section_request sample_world).1 = Raise ValueError
  ∧ w_calls sample_world = []
  ∧ SaveSettings sample_settings ∈ w_calls (put section_request sample_world).2.
Proof.
  split; [reflexivity|]. split; [reflexivity|].
  replace (w_calls (put section_request sample_world).2)
    with [SaveSettings sample_settings] by reflexivity.
  left.
Qed.

(** C3: for a course with unique unit and lesson identifiers, sending the
    outline [traverse_course] produced back through [put], each element
    with its own availability and visibility, returns normally and leaves
    the units and the lessons as they were. *)
Theorem C3_outline_round_trip (r : Request) (w : World) (els : list Element) :
  traverse_course (w_course w) = Ok els →
  unique_unit_ids (w_course w) →
  unique_lesson_ids (w_course w) →
  p_element_settings (payload r) = Some (item_of_element <$> els) →
  (put r w).1 = Ok tt
  ∧ units (w_course (put r w).2) = units (w_course w)
  ∧ lessons (w_course (put r w).2) = lessons (w_course w).
Proof.
  intros Hels Hnu Hnl Hitems.
  destruct (authorized r) eqn:Hauth.
  - rewrite (put_authorized r w Hauth). unfold merged. rewrite Hitems. simpl.
    rewrite traverse_course_blocks in Hels.
    pose proof (blocks_echoes _ _ _ Hnu Hnl (λ u Hu, Hu) Hels) as Hechoes.
    destruct (apply_policy_frame (payload r) (w_course w)) as [Hus Hls].
    destruct (echoes_run _ (apply_policy (payload r) (w_course w)) _
                Hechoes Hus Hls) as [-> ->].
    done.
  - destruct (put_unauthorized r w Hauth) as (-> & -> & _). done.
Qed.

Lemma C3_sample_round_trip :
  (put roundtrip_request sample_world).1 = Ok tt
  ∧ units (w_course (put roundtrip_request sample_world).2) = units sample_course
  ∧ lessons (w_course (put roundtrip_request sample_world).2)
    = lessons sample_course.
Proof.
  apply (C3_outline_round_trip roundtrip_request sample_world sample_outline).
  - reflexivity.
  - unfold unique_unit_ids. simpl. apply (bool_decide_unpack _); vm_compute; exact I.
  - unfold unique_lesson_ids. simpl. apply (bool_decide_unpack _); vm_compute; exact I.
  - reflexivity.
Defined.

(** C4: an entry of type "unit" or "lesson" whose id names nothing in the
    course raises nothing and changes nothing: [put] behaves as on the
    payload without it, so the entries after it are processed; [put]
    returns normally when the other entries are well formed; and when it
    is the only entry, the units and lessons stay as they were. *)
Theorem C4_missing_target_is_skipped
    (r : Request) (w : World) (pre post : list Item) (it : Item) :
  p_element_settings (payload r) = Some (pre ++ it :: post) →
  unresolved (w_course w) it →
  put_item it w = (Ok tt, w)
  ∧ put r w = put (with_element_settings (Some (pre ++ post)) r) w
  ∧ (Forall well_formed (pre ++ post) → (put r w).1 = Ok tt)
  ∧ (pre = [] → post = [] →
     units (w_course (put r w).2) = units (w_course w)
     ∧ lessons (w_course (put r w).2) = lessons (w_course w)).
Proof.
  intros Hitems Hit.
  pose proof (unresolved_no_error _ _ Hit) as Herr.
  assert (Hsame : put r w = put (with_element_settings (Some (pre ++ post)) r) w).
  { destruct (authorized r) eqn:Hauth.
    - rewrite !put_authorized by done. unfold merged. simpl.
      rewrite Hitems. simpl.
      rewrite (first_error_skip pre it post Herr).
      destruct (apply_policy_frame (payload r) (w_course w)) as [Hus Hls].
      rewrite (run_effects_skip (w_course w) pre it post); [done|done|..].
      + unfold apply_policy in *. simpl. by rewrite Hus.
      + unfold apply_policy in *. simpl. by rewrite Hls.
    - unfold authorized in Hauth. unfold put. simpl.
      destruct (xsrf_ok r); [|done]. by destruct (user_allowed r). }
  split; [|split; [exact Hsame|split]].
  - rewrite put_item_effect, Herr.
    rewrite (unresolved_no_effect (w_course w) (w_course w) it) by done.
    by destruct w.
  - intros Hwf. rewrite Hsame.
    destruct (authorized r) eqn:Hauth.
    + rewrite put_authorized by done. unfold merged. simpl.
      by rewrite (first_error_well_formed _ Hwf).
    + by destruct (put_unauthorized (with_element_settings (Some (pre ++ post)) r)
                     w Hauth) as (-> & _).
  - intros -> ->. rewrite Hsame.
    destruct (authorized r) eqn:Hauth.
    + rewrite put_authorized by done. unfold merged. simpl.
      apply apply_policy_frame.
    + by destruct (put_unauthorized
                     (with_element_settings (Some ([] ++ [])) r) w Hauth)
        as (_ & -> & _).
Qed.

Lemma C4_missing_request_skips :
  put missing_request sample_world
  = put (with_element_settings
           (Some [mkItem (Some (PStr "unit")) (Some 2%positive)
                         (Some (PStr "public")) None;
                  mkItem (Some (PStr "lesson")) (Some 10%positive) None
                         (Some (PBool true))])
           missing_request) sample_world
  ∧ (put missing_request sample_world).1 = Ok tt.
Proof.
  destruct (C4_missing_target_is_skipped missing_request sample_world
              [mkItem (Some (PStr "unit")) (Some 2%positive)
                      (Some (PStr "public")) None]
              [mkItem (Some (PStr "lesson")) (Some 10%positive) None
                      (Some (PBool true))]
              missing_item eq_refl) as (_ & Hsame & Hok & _).
  - exists 99%positive. split; [reflexivity|]. left. split; reflexivity.
  - split; [exact Hsame|]. apply Hok.
    constructor; [|constructor; [|constructor]].
    + split; [by left|by eexists].
    + split; [by right|by eexists].
Defined.

(** C5: when the payload has no "whitelist" key the stored whitelist (the
    whole registration form dictionary) is left as it was; when both
    access checks pass and the payload carries the empty string, the
    whitelist is overwritten with the empty string, and that is what the
    settings save is given. *)
Theorem C5_whitelist_absent_or_empty (r : Request) (w : World) :
  (p_whitelist (payload r) = None →
   reg_form (w_settings (put r w).2) = reg_form (w_settings w))
  ∧ (authorized r = true →
     p_whitelist (payload r) = Some (PStr EmptyString) →
     reg_form (w_settings (put r w).2) !! "whitelist" = Some (PStr EmptyString)
     ∧ ∃ s, SaveSettings s ∈ w_calls (put r w).2
            ∧ reg_form s !! "whitelist" = Some (PStr EmptyString)).
Proof.
  split.
  - intros Habs. destruct (authorized r) eqn:Hauth.
    + rewrite put_authorized by done. unfold merged.
      assert (Hs : reg_form (merge_settings (payload r) (w_settings w))
                   = reg_form (w_settings w)).
      { unfold merge_settings. rewrite Habs. simpl.
        by case_bool_decide. }
      by destruct (first_error _).
    + by destruct (put_unauthorized r w Hauth) as (_ & _ & -> & _).
  - intros Hauth Hempty. rewrite put_authorized by done. unfold merged.
    assert (Hs : reg_form (merge_settings (payload r) (w_settings w))
                 !! "whitelist" = Some (PStr EmptyString)).
    { unfold merge_settings. rewrite Hempty. simpl.
      case_bool_decide; simpl; apply lookup_insert_eq. }
    destruct (first_error _); simpl; (split; [done|]);
      exists (merge_settings (payload r) (w_settings w));
      (split; [|done]); rewrite ?elem_of_app, elem_of_cons; tauto.
Qed.

Lemma C5_empty_whitelist_request_overwrites :
  reg_form (w_settings sample_world) !! "whitelist" = Some (PStr "a@example.com")
  ∧ reg_form (w_settings (put empty_whitelist_request sample_world).2)
    !! "whitelist" = Some (PStr EmptyString)
  ∧ reg_form (w_settings (put policy_request sample_world).2)
    = reg_form (w_settings sample_world).
Proof.
  split; [reflexivity|]. split.
  - apply (C5_whitelist_absent_or_empty empty_whitelist_request sample_world);
      reflexivity.
  - apply (C5_whitelist_absent_or_empty policy_request sample_world).
    reflexivity.
Defined.

(** C6: doing [put] a second time with the same request leaves the course
    and the settings as the first [put] left them, and ends the same way. *)
Theorem C6_put_twice (r : Request) (w : World) :
  w_course (put r (put r w).2).2 = w_course (put r w).2
  ∧ w_settings (put r (put r w).2).2 = w_settings (put r w).2
  ∧ (put r (put r w).2).1 = (put r w).1.
Proof.
  destruct (authorized r) eqn:Hauth.
  - rewrite !put_authorized by done.
    assert (Hw : ∀ w', w_course (merged r w').2
                       = run_effects
                           (ok_prefix (default [] (p_element_settings (payload r))))
                           (apply_policy (payload r) (w_course w'))
                     ∧ w_settings (merged r w').2
                       = merge_settings (payload r) (w_settings w')
                     ∧ (merged r w').1
                       = match first_error
                                 (default [] (p_element_settings (payload r))) with
                         | Some e => Raise e
                         | None => Ok tt
                         end).
    { intros w'. unfold merged. by destruct (first_error _). }
    destruct (Hw w) as (Hc & Hs & Ho).
    destruct (Hw (merged r w).2) as (-> & -> & ->).
    rewrite Hc, Hs, Ho. split; [|split; [apply merge_settings_twice|done]].
    rewrite (run_effects_apply_policy _ _ (w_course w)).
    rewrite apply_policy_twice.
    rewrite run_effects_apply_policy.
    by rewrite run_effects_twice.
  - destruct (put_unauthorized r (put r w).2 Hauth) as (-> & -> & -> & _).
    by destruct (put_unauthorized r w Hauth) as (-> & _).
Qed.

(** C8: when both access checks pass, [put] calls the course model's
    setter once, with the payload's value, if that value is truthy, and
    not at all otherwise, in which case the course-wide policy stays as
    it was. A missing key, [null] and the empty string are not truthy; a
    non-empty string is. *)
Theorem C8_course_availability_setter (r : Request) (w : World) :
  authorized r = true →
  (∃ new, w_calls (put r w).2 = w_calls w ++ new
          ∧ filter (λ k, is_setter_call k) new
            = if py_truthy (dict_get (p_course_availability (payload r)))
              then [SetCourseAvailability
                      (dict_get (p_course_availability (payload r)))]
              else [])
  ∧ (py_truthy (dict_get (p_course_availability (payload r))) = false →
     course_availability (w_course (put r w).2)
     = course_availability (w_course w))
  ∧ (p_course_availability (payload r) = None →
     py_truthy (dict_get (p_course_availability (payload r))) = false)
  ∧ (p_course_availability (payload r) = Some PNone →
     py_truthy (dict_get (p_course_availability (payload r))) = false)
  ∧ (p_course_availability (payload r) = Some (PStr EmptyString) →
     py_truthy (dict_get (p_course_availability (payload r))) = false)
  ∧ (∀ s, s ≠ EmptyString → p_course_availability (payload r) = Some (PStr s) →
     py_truthy (dict_get (p_course_availability (payload r))) = true).
Proof.
  intros Hauth. rewrite put_authorized by done. unfold merged.
  split; [|split; [|repeat split]].
  - unfold policy_calls.
    destruct (first_error _); simpl; eexists;
      (split; [rewrite <- ?app_assoc; reflexivity|]);
      destruct (py_truthy _); simpl;
      rewrite ?filter_cons_False, ?filter_cons_True by (simpl; tauto);
      done.
  - intros Hfalse.
    assert (Hc : course_availability
                   (run_effects
                      (ok_prefix (default [] (p_element_settings (payload r))))
                      (apply_policy (payload r) (w_course w)))
                 = course_availability (w_course w)).
    { destruct (run_effects_frame
                  (ok_prefix (default [] (p_element_settings (payload r))))
                  (apply_policy (payload r) (w_course w))) as (_ & _ & ->).
      unfold apply_policy. by rewrite Hfalse. }
    by destruct (first_error _).
  - by intros ->.
  - by intros ->.
  - by intros ->.
  - intros s Hs ->. by destruct s.
Qed.

Lemma C8_policy_request_calls_setter :
  ∃ new, w_calls (put policy_request sample_world).2
         = w_calls sample_world ++ new
         ∧ filter (λ k, is_setter_call k) new
           = [SetCourseAvailability (PStr "public")].
Proof.
  apply (C8_course_availability_setter policy_request sample_world eq_refl).
Defined.

(** C9: for "whitelist" and for "show_lessons_in_syllabus", a payload that
    binds the key to [null] is handled as the payload without the key,
    and the stored whitelist and flag stay as they were. *)
Theorem C9_null_is_absent (r : Request) (w : World) :
  put (with_whitelist (Some PNone) r) w = put (with_whitelist None r) w
  ∧ put (with_show_lessons_in_syllabus (Some PNone) r) w
    = put (with_show_lessons_in_syllabus None r) w
  ∧ reg_form (w_settings (put (with_whitelist (Some PNone) r) w).2)
    = reg_form (w_settings w)
  ∧ course_dict
      (w_settings (put (with_show_lessons_in_syllabus (Some PNone) r) w).2)
    = course_dict (w_settings w).
Proof.
  split; [reflexivity|]. split; [reflexivity|].
  destruct (authorized r) eqn:Hauth.
  - assert (Ha1 : authorized (with_whitelist (Some PNone) r) = true) by done.
    assert (Ha2 : authorized (with_show_lessons_in_syllabus (Some PNone) r) = true)
      by done.
    rewrite (put_authorized _ w Ha1), (put_authorized _ w Ha2).
    unfold merged, merge_settings. simpl.
    split; destruct (first_error _); simpl; by repeat case_bool_decide.
  - split.
    + by destruct (put_unauthorized (with_whitelist (Some PNone) r) w Hauth)
        as (_ & _ & -> & _).
    + by destruct (put_unauthorized
                     (with_show_lessons_in_syllabus (Some PNone) r) w Hauth)
        as (_ & _ & -> & _).
Qed.

(** * Further properties of the read side *)

Section outline_contents.
Implicit Types (c : Course) (u a : Unit) (l : Lesson).
Implicit Types (els b : list Element) (e : Element).

Lemma blocks_elem c us els u :
  blocks c us = Ok els → u ∈ us →
  ∃ b, block c u = Ok b ∧ ∀ e, e ∈ b → e ∈ els.
Proof.
  revert els. induction us as [|v us IH]; intros els Hels Hu.
  - by apply elem_of_nil in Hu.
  - apply blocks_cons_inv in Hels as (b & r & Hb & Hr & ->).
    apply elem_of_cons in Hu as [->|Hu].
    + exists b. split; [done|]. intros e He. apply elem_of_app. by left.
    + destruct (IH r Hr Hu) as (b' & Hb' & Hsub). exists b'.
      split; [done|]. intros e He. apply elem_of_app. right. by apply Hsub.
Qed.

Lemma blocks_elem_inv c us els e :
  blocks c us = Ok els → e ∈ els →
  ∃ u b, u ∈ us ∧ block c u = Ok b ∧ e ∈ b.
Proof.
  revert els. induction us as [|v us IH]; intros els Hels He.
  - injection Hels as <-. by apply elem_of_nil in He.
  - apply blocks_cons_inv in Hels as (b & r & Hb & Hr & ->).
    apply elem_of_app in He as [He|He].
    + exists v, b. split; [left|done].
    + destruct (IH r Hr He) as (u & b' & Hu & Hb' & He').
      exists u, b'. split; [by right|done].
Qed.

Lemma nested_elem c (r : option ident) b e :
  nested c r = Ok b → e ∈ b →
  ∃ p a, r = Some p ∧ find_unit_by_id c p = Some a ∧ e = unit_element a true.
Proof.
  destruct r as [p|]; simpl.
  - destruct (find_unit_by_id c p) as [a|] eqn:Ha; [|done].
    intros [= <-] ->%list_elem_of_singleton. by exists p, a.
  - intros [= <-] H. by apply elem_of_nil in H.
Qed.

(** Where an element of a unit's block comes from. *)
Lemma block_elem_cases c u b e :
  block c u = Ok b → e ∈ b →
  (e = unit_element u false ∧ skipped c u = false)
  ∨ (is_unit u = true
     ∧ ∃ p a, (pre_assessment u = Some p ∨ post_assessment u = Some p)
              ∧ find_unit_by_id c p = Some a ∧ e = unit_element a true)
  ∨ (is_unit u = true
     ∧ ∃ l, l ∈ get_lessons c (unit_id u) ∧ e = lesson_element l).
Proof.
  unfold block. fold (skipped c u).
  destruct (skipped c u) eqn:Hskip.
  { intros [= <-] H. by apply elem_of_nil in H. }
  destruct (is_unit u).
  - destruct (nested c (pre_assessment u)) as [pre|] eqn:Hpre; simpl; [|done].
    destruct (nested c (post_assessment u)) as [post|] eqn:Hpost; simpl; [|done].
    intros [= <-] He.
    apply elem_of_cons in He as [->|He]; [by left|].
    apply elem_of_app in He as [He|He].
    { destruct (nested_elem _ _ _ _ Hpre He) as (p & a & Hp & Ha & ->).
      right. left. split; [done|]. exists p, a. auto. }
    apply elem_of_app in He as [He|He].
    { apply list_elem_of_fmap in He as (l & -> & Hl).
      right. right. split; [done|]. by exists l. }
    destruct (nested_elem _ _ _ _ Hpost He) as (p & a & Hp & Ha & ->).
    right. left. split; [done|]. exists p, a. auto.
  - intros [= <-] ->%list_elem_of_singleton. by left.
Qed.

Lemma block_self c u b :
  block c u = Ok b → skipped c u = false → unit_element u false ∈ b.
Proof.
  unfold block. fold (skipped c u). intros Hb Hskip. rewrite Hskip in Hb.
  destruct (is_unit u).
  - destruct (nested c (pre_assessment u)) as [pre|]; simpl in Hb; [|done].
    destruct (nested c (post_assessment u)) as [post|]; simpl in Hb; [|done].
    injection Hb as <-. left.
  - injection Hb as <-. left.
Qed.

Lemma block_nested c u b p :
  block c u = Ok b → is_unit u = true →
  pre_assessment u = Some p ∨ post_assessment u = Some p →
  ∃ a, find_unit_by_id c p = Some a ∧ unit_element a true ∈ b.
Proof.
  unfold block. intros Hb Hplain Hp.
  assert (is_assessment u = false) as Hass.
  { unfold is_unit, is_assessment in *. apply bool_decide_eq_true in Hplain.
    rewrite Hplain. done. }
  rewrite Hass, Hplain in Hb. simpl in Hb.
  destruct (nested c (pre_assessment u)) as [pre|] eqn:Hpre; simpl in Hb; [|done].
  destruct (nested c (post_assessment u)) as [post|] eqn:Hpost; simpl in Hb; [|done].
  injection Hb as <-. destruct Hp as [Hp|Hp].
  - rewrite Hp in Hpre. simpl in Hpre.
    destruct (find_unit_by_id c p) as [a|]; [|done]. injection Hpre as <-.
    exists a. split; [done|]. right. apply elem_of_app. left. left.
  - rewrite Hp in Hpost. simpl in Hpost.
    destruct (find_unit_by_id c p) as [a|]; [|done]. injection Hpost as <-.
    exists a. split; [done|]. right. apply elem_of_app. right.
    apply elem_of_app. right. left.
Qed.

Lemma block_lessons c u b l :
  block c u = Ok b → is_unit u = true → l ∈ get_lessons c (unit_id u) →
  lesson_element l ∈ b.
Proof.
  unfold block. intros Hb Hplain Hl.
  assert (is_assessment u = false) as Hass.
  { unfold is_unit, is_assessment in *. apply bool_decide_eq_true in Hplain.
    rewrite Hplain. done. }
  rewrite Hass, Hplain in Hb. simpl in Hb.
  destruct (nested c (pre_assessment u)) as [pre|]; simpl in Hb; [|done].
  destruct (nested c (post_assessment u)) as [post|]; simpl in Hb; [|done].
  injection Hb as <-. right. apply elem_of_app. right.
  apply elem_of_app. left. by apply list_elem_of_fmap_2.
Qed.

Lemma block_toplevel_filter c u b :
  block c u = Ok b →
  filter (λ e, e_indent e = false) b
  = if skipped c u then [] else [unit_element u false].
Proof.
  intros Hb.
  assert (Hindented : ∀ xs : list Element,
            Forall (λ e, e_indent e = true) xs →
            filter (λ e, e_indent e = false) xs = []).
  { intros xs Hxs. induction Hxs as [|x xs Hx _ IH]; [done|].
    rewrite filter_cons_False by congruence. done. }
  revert Hb. unfold block. fold (skipped c u).
  destruct (skipped c u); [by intros [= <-]|].
  destruct (is_unit u); [|by intros [= <-]].
  destruct (nested c (pre_assessment u)) as [pre|] eqn:Hpre; simpl; [|done].
  destruct (nested c (post_assessment u)) as [post|] eqn:Hpost; simpl; [|done].
  intros [= <-]. rewrite filter_cons_True by done. f_equal.
  apply Hindented. apply Forall_app. split.
  { apply Forall_forall. intros e He. apply (nested_indent _ _ _ _ Hpre He). }
  apply Forall_app. split.
  { apply Forall_fmap, Forall_true. done. }
  apply Forall_forall. intros e He. apply (nested_indent _ _ _ _ Hpost He).
Qed.

Lemma blocks_toplevel_filter c us els :
  blocks c us = Ok els →
  filter (λ e, e_indent e = false) els
  = (λ u, unit_element u false) <$> filter (λ u, skipped c u = false) us.
Proof.
  revert els. induction us as [|u us IH]; intros els Hels.
  - by injection Hels as <-.
  - apply blocks_cons_inv in Hels as (b & r & Hb & Hr & ->).
    rewrite filter_app, (block_toplevel_filter _ _ _ Hb), (IH _ Hr).
    rewrite filter_cons. destruct (skipped c u); by case_decide.
Qed.

End outline_contents.

(** X1: every element of the outline comes from the course: a unit
    element shows a unit of the course, a lesson element a lesson of the
    course that belongs to one of its plain units; the element carries
    that unit's or lesson's own title, availability and visibility. *)
Theorem outline_sound (c : Course) (els : list Element) :
  traverse_course c = Ok els →
  Forall (λ e, (∃ u, u ∈ units c ∧ e = unit_element u (e_indent e))
               ∨ (∃ l u, l ∈ lessons c ∧ u ∈ units c ∧ is_unit u = true
                         ∧ lesson_unit_id l = unit_id u
                         ∧ e = lesson_element l))
         els.
Proof.
  rewrite traverse_course_blocks. intros Hels.
  apply Forall_forall. intros e He.
  destruct (blocks_elem_inv _ _ _ _ Hels He) as (u & b & Hu & Hb & Heb).
  destruct (block_elem_cases _ _ _ _ Hb Heb)
    as [[-> _]|[(_ & p & a & _ & Ha & ->)|(Hplain & l & Hl & ->)]].
  - left. by exists u.
  - left. exists a. split; [|done].
    by destruct (first_match_Some _ _ _ Ha).
  - right. apply list_elem_of_filter in Hl as [Hown Hl]. by exists l, u.
Qed.

Lemma outline_sound_sample :
  Forall (λ e, (∃ u, u ∈ units sample_course ∧ e = unit_element u (e_indent e))
               ∨ (∃ l u, l ∈ lessons sample_course ∧ u ∈ units sample_course
                         ∧ is_unit u = true
                         ∧ lesson_unit_id l = unit_id u
                         ∧ e = lesson_element l))
         sample_outline.
Proof. apply (outline_sound sample_course sample_outline). reflexivity. Defined.

(** X2: the elements that are not indented are the units the loop does
    not skip, in stored order; the skipped ones are the assessments that
    some unit names as its pre- or post-assessment. *)
Theorem outline_top_level (c : Course) (els : list Element) :
  traverse_course c = Ok els →
  filter (λ e, e_indent e = false) els
  = (λ u, unit_element u false) <$> filter (λ u, skipped c u = false) (units c).
Proof.
  rewrite traverse_course_blocks. apply blocks_toplevel_filter.
Qed.

Lemma outline_top_level_sample :
  filter (λ e, e_indent e = false) sample_outline
  = [unit_element sample_unit false].
Proof.
  rewrite (outline_top_level sample_course sample_outline eq_refl).
  reflexivity.
Defined.

(** X3: when only plain units carry pre- or post-assessment references,
    no unit is left out of the outline: every unit of the course has an
    element with its id, and every lesson of a plain unit has its
    element. *)
Theorem outline_complete (c : Course) (els : list Element) :
  traverse_course c = Ok els →
  (∀ u, u ∈ units c →
        is_Some (pre_assessment u) ∨ is_Some (post_assessment u) →
        is_unit u = true) →
  (∀ u, u ∈ units c → ∃ e, e ∈ els ∧ e_type e = "unit" ∧ e_id e = unit_id u)
  ∧ (∀ l u, l ∈ lessons c → u ∈ units c → is_unit u = true →
            lesson_unit_id l = unit_id u → lesson_element l ∈ els).
Proof.
  rewrite traverse_course_blocks. intros Hels Hrefs. split.
  - intros u Hu. destruct (skipped c u) eqn:Hskip.
    + unfold skipped in Hskip. apply andb_true_iff in Hskip as [_ Hparent].
      apply bool_decide_eq_true in Hparent as [v Hv].
      apply first_match_Some in Hv as [Hv Href].
      assert (Hp : pre_assessment v = Some (unit_id u)
                   ∨ post_assessment v = Some (unit_id u)).
      { unfold refers_to in Href. apply orb_true_iff in Href as [H|H];
          apply bool_decide_eq_true in H; auto. }
      assert (Hplain : is_unit v = true).
      { apply Hrefs; [done|]. destruct Hp as [-> | ->]; [left|right]; by eexists. }
      destruct (blocks_elem _ _ _ _ Hels Hv) as (b & Hb & Hsub).
      destruct (block_nested _ _ _ _ Hb Hplain Hp) as (a & Ha & He).
      exists (unit_element a true). split; [by apply Hsub|]. split; [done|].
      apply first_match_Some in Ha as [_ Hid].
      by apply bool_decide_eq_true in Hid.
    + destruct (blocks_elem _ _ _ _ Hels Hu) as (b & Hb & Hsub).
      exists (unit_element u false). split; [|done].
      apply Hsub. by apply (block_self c).
  - intros l u Hl Hu Hplain Hown.
    destruct (blocks_elem _ _ _ _ Hels Hu) as (b & Hb & Hsub).
    apply Hsub. apply (block_lessons c u b l Hb Hplain).
    by apply list_elem_of_filter.
Qed.

Lemma outline_complete_sample :
  (∃ e, e ∈ sample_outline ∧ e_type e = "unit" ∧ e_id e = unit_id sample_post)
  ∧ lesson_element sample_lesson_b ∈ sample_outline.
Proof.
  destruct (outline_complete sample_course sample_outline eq_refl)
    as [Hunits Hlessons].
  - intros u Hu Href.
    apply elem_of_cons in Hu as [->|Hu].
    { destruct Href as [[? H]|[? H]]; discriminate H. }
    apply elem_of_cons in Hu as [->|Hu]; [reflexivity|].
    apply elem_of_cons in Hu as [->|Hu].
    { destruct Href as [[? H]|[? H]]; discriminate H. }
    by apply elem_of_nil in Hu.
  - split.
    + apply Hunits. right. right. left.
    + apply (Hlessons sample_lesson_b sample_unit).
      * right. left.
      * right. left.
      * reflexivity.
      * reflexivity.
Defined.

(** X4: an assessment that some unit names as its pre- or
    post-assessment, but no plain unit does, is in the outline nowhere:
    it is skipped at its own position and no unit lists it. (Unit
    identifiers are unique.) *)
Theorem assessment_of_other_unit_is_missing
    (c : Course) (els : list Element) (a : Unit) :
  traverse_course c = Ok els →
  unique_unit_ids c →
  a ∈ units c →
  is_assessment a = true →
  is_Some (get_parent_unit c (unit_id a)) →
  (∀ u, u ∈ units c → is_unit u = true → refers_to (unit_id a) u = false) →
  ∀ e, e ∈ els → e_type e = "unit" → e_id e ≠ unit_id a.
Proof.
  intros Hels Hnd Ha Hass [v Hv] Hnone e He Hty Hid.
  apply first_match_Some in Hv as [Hv Href].
  destruct (e_indent e) eqn:Hindent.
  - rewrite traverse_course_blocks in Hels.
    destruct (blocks_elem_inv _ _ _ _ Hels He) as (u & b & Hu & Hb & Heb).
    destruct (block_elem_cases _ _ _ _ Hb Heb)
      as [[-> _]|[(Hplain & p & a' & Hp & Ha' & ->)|(_ & l & _ & ->)]];
      [done| |done].
    apply first_match_Some in Ha' as [_ Hid'].
    apply bool_decide_eq_true in Hid'. simpl in Hid. rewrite Hid' in Hid.
    specialize (Hnone u Hu Hplain). unfold refers_to in Hnone.
    apply orb_false_iff in Hnone as [H1 H2].
    apply bool_decide_eq_false in H1. apply bool_decide_eq_false in H2.
    rewrite <- Hid in H1, H2. by destruct Hp.
  - by apply (referenced_assessment_hidden c els v a (unit_id a) Hnd Hels Hv Href
                (find_unit_by_id_unique c a Hnd Ha) Hass e He Hty Hindent).
Qed.

Lemma assessment_of_other_unit_is_missing_sample :
  traverse_course orphaned_course
  = Ok [unit_element (mkUnit 1 TypeAssessment "Outer" (PStr "public")
                             (PBool false) (Some 2%positive) None) false]
  ∧ ∀ e, e ∈ [unit_element (mkUnit 1 TypeAssessment "Outer" (PStr "public")
                                   (PBool false) (Some 2%positive) None) false] →
         e_type e = "unit" → e_id e ≠ 2%positive.
Proof.
  split; [reflexivity|].
  apply (assessment_of_other_unit_is_missing orphaned_course _
           (mkUnit 2 TypeAssessment "Inner" (PStr "public") (PBool false)
                   None None) eq_refl).
  - unfold unique_unit_ids. simpl. apply (bool_decide_unpack _); vm_compute; exact I.
  - right. left.
  - reflexivity.
  - by eexists.
  - intros u Hu Hplain.
    apply elem_of_cons in Hu as [->|Hu]; [discriminate Hplain|].
    apply elem_of_cons in Hu as [->|Hu]; [discriminate Hplain|].
    by apply elem_of_nil in Hu.
Defined.

(** * What [put] leaves alone *)

Section frame.
Implicit Types (c : Course) (u a : Unit) (l : Lesson) (w : World).
Implicit Types (it : Item) (items : list Item) (r : Request).

Lemma same_unit_frame_refl u : same_unit_frame u u.
Proof. by repeat split. Qed.

Lemma same_lesson_frame_refl l : same_lesson_frame l l.
Proof. by repeat split. Qed.

Lemma same_unit_frame_trans u1 u2 u3 :
  same_unit_frame u1 u2 → same_unit_frame u2 u3 → same_unit_frame u1 u3.
Proof.
  intros (? & ? & ? & ? & ?) (? & ? & ? & ? & ?).
  repeat split; congruence.
Qed.

Lemma same_lesson_frame_trans l1 l2 l3 :
  same_lesson_frame l1 l2 → same_lesson_frame l2 l3 → same_lesson_frame l1 l3.
Proof. intros (? & ? & ?) (? & ? & ?). repeat split; congruence. Qed.

Lemma same_frame_refl c : same_frame c c.
Proof.
  split; apply Forall2_same_length_lookup; split; try done;
    intros i x y Hx Hy; simplify_eq;
    [apply same_unit_frame_refl|apply same_lesson_frame_refl].
Qed.

Lemma same_frame_trans c1 c2 c3 :
  same_frame c1 c2 → same_frame c2 c3 → same_frame c1 c3.
Proof.
  intros [Hu Hl] [Hu' Hl']. split.
  - eapply Forall2_trans; [|exact Hu|exact Hu'].
    intros ???. apply same_unit_frame_trans.
  - eapply Forall2_trans; [|exact Hl|exact Hl'].
    intros ???. apply same_lesson_frame_trans.
Qed.

Lemma assign_unit_frame it u : same_unit_frame u (assign_unit it u).
Proof.
  unfold assign_unit.
  by destruct (it_availability it), (it_shown_when_unavailable it).
Qed.

Lemma assign_lesson_frame it l : same_lesson_frame l (assign_lesson it l).
Proof.
  unfold assign_lesson.
  by destruct (it_availability it), (it_shown_when_unavailable it).
Qed.

Lemma modify_first_Forall2 {A} (R : A → A → Prop) (p : A → bool)
    (f : A → A) (xs : list A) :
  (∀ x, R x x) → (∀ x, R x (f x)) → Forall2 R xs (modify_first p f xs).
Proof.
  intros Hrefl Hf. induction xs as [|y xs IH]; simpl; [constructor|].
  destruct (p y); constructor; auto.
  apply Forall2_same_length_lookup. split; [done|].
  intros i x x' Hx Hx'. simplify_eq. apply Hrefl.
Qed.

Lemma item_effect_same_frame it c : same_frame c (item_effect it c).
Proof.
  destruct (item_effect_cases it) as [H|[[i H]|[i H]]]; rewrite H.
  - apply same_frame_refl.
  - split; simpl; [|apply same_frame_refl].
    apply modify_first_Forall2;
      [apply same_unit_frame_refl|apply assign_unit_frame].
  - split; simpl; [apply same_frame_refl|].
    apply modify_first_Forall2;
      [apply same_lesson_frame_refl|apply assign_lesson_frame].
Qed.

Lemma run_effects_same_frame items c : same_frame c (run_effects items c).
Proof.
  unfold run_effects. revert c.
  induction items as [|it items IH]; intros c; simpl.
  - apply same_frame_refl.
  - eapply same_frame_trans; [apply item_effect_same_frame|apply IH].
Qed.

Lemma apply_policy_same_frame p c : same_frame c (apply_policy p c).
Proof.
  unfold apply_policy. destruct (py_truthy _); apply (same_frame_refl c).
Qed.

Lemma merged_course r w :
  w_course (merged r w).2
  = run_effects (ok_prefix (default [] (p_element_settings (payload r))))
                (apply_policy (payload r) (w_course w)).
Proof. unfold merged. by destruct (first_error _). Qed.

Lemma merged_settings r w :
  w_settings (merged r w).2 = merge_settings (payload r) (w_settings w).
Proof. unfold merged. by destruct (first_error _). Qed.

Lemma merged_outcome r w :
  (merged r w).1
  = match first_error (default [] (p_element_settings (payload r))) with
    | Some e => Raise e
    | None => Ok tt
    end.
Proof. unfold merged. by destruct (first_error _). Qed.

Lemma put_same_frame r w : same_frame (w_course w) (w_course (put r w).2).
Proof.
  destruct (authorized r) eqn:Hauth.
  - rewrite put_authorized, merged_course by done.
    eapply same_frame_trans;
      [apply apply_policy_same_frame|apply run_effects_same_frame].
  - destruct (put_unauthorized r w Hauth) as (_ & -> & _).
    apply same_frame_refl.
Qed.

(** Lookups and the loop of [traverse_course] see only the frame. *)
Lemma first_match_Forall2 {A} (R : A → A → Prop) (p p' : A → bool)
    (xs xs' : list A) :
  Forall2 R xs xs' → (∀ x x', R x x' → p x = p' x') →
  option_Forall2 R (first_match p xs) (first_match p' xs').
Proof.
  intros Hxs Hp. induction Hxs as [|x x' xs xs' Hx _ IH]; simpl.
  - constructor.
  - rewrite <- (Hp x x' Hx). destruct (p x); [by constructor|done].
Qed.

Lemma find_unit_by_id_frame c c' i :
  same_frame c c' →
  option_Forall2 same_unit_frame (find_unit_by_id c i) (find_unit_by_id c' i).
Proof.
  intros [Hu _]. apply first_match_Forall2; [done|].
  intros x x' (-> & _). done.
Qed.

Lemma skipped_frame c c' u u' :
  same_frame c c' → same_unit_frame u u' → skipped c u = skipped c' u'.
Proof.
  intros [Hus _] (Hid & Hty & _). unfold skipped, is_assessment.
  rewrite Hty, Hid. f_equal.
  assert (H : option_Forall2 same_unit_frame
                (get_parent_unit c (unit_id u')) (get_parent_unit c' (unit_id u'))).
  { apply first_match_Forall2; [done|].
    intros x x' (_ & _ & _ & Hpre & Hpost). unfold refers_to.
    by rewrite Hpre, Hpost. }
  destruct H; [|done].
  rewrite !bool_decide_eq_true_2; [done|by eexists|by eexists].
Qed.

Lemma unit_element_shape u u' indent :
  same_unit_frame u u' →
  shape (unit_element u indent) = shape (unit_element u' indent).
Proof. intros (Hid & _ & Ht & _). unfold shape. simpl. by rewrite Hid, Ht. Qed.

Lemma nested_frame c c' (p : option ident) :
  same_frame c c' →
  result_map (fmap shape) (nested c p) = result_map (fmap shape) (nested c' p).
Proof.
  intros Hf. destruct p as [i|]; simpl; [|done].
  destruct (find_unit_by_id_frame c c' i Hf) as [a a' Ha|]; simpl; [|done].
  by rewrite (unit_element_shape a a' true Ha).
Qed.

Lemma get_lessons_frame c c' i :
  same_frame c c' →
  shape <$> (lesson_element <$> get_lessons c i)
  = shape <$> (lesson_element <$> get_lessons c' i).
Proof.
  intros [_ Hls]. unfold get_lessons.
  assert (H : Forall2 same_lesson_frame
                (filter (λ l, lesson_unit_id l = i) (lessons c))
                (filter (λ l, lesson_unit_id l = i) (lessons c'))).
  { apply Forall2_filter; [|done]. intros x y (_ & -> & _). done. }
  induction H as [|x y xs ys (Hid & _ & Ht) _ IH]; [done|].
  rewrite !fmap_cons, IH. f_equal. unfold shape. simpl. by rewrite Hid, Ht.
Qed.

Lemma block_frame c c' u u' :
  same_frame c c' → same_unit_frame u u' →
  result_map (fmap shape) (block c u) = result_map (fmap shape) (block c' u').
Proof.
  intros Hf Hu. unfold block. fold (skipped c u) (skipped c' u').
  rewrite (skipped_frame c c' u u' Hf Hu).
  destruct (skipped c' u'); [done|].
  pose proof Hu as (Hid & Hty & _ & Hpre & Hpost).
  unfold is_unit. rewrite Hty. case_bool_decide; simpl.
  - rewrite <- Hpre, <- Hpost, <- Hid.
    pose proof (nested_frame c c' (pre_assessment u) Hf) as H1.
    pose proof (nested_frame c c' (post_assessment u) Hf) as H2.
    destruct (nested c (pre_assessment u)), (nested c' (pre_assessment u));
      simpl in *; simplify_eq; [|done].
    destruct (nested c (post_assessment u)), (nested c' (post_assessment u));
      simpl in *; simplify_eq; [|done].
    f_equal. f_equal; [by apply unit_element_shape|].
    change (shape <$> a ++ (lesson_element <$> get_lessons c (unit_id u)) ++ a1
            = shape <$> a0 ++ (lesson_element <$> get_lessons c' (unit_id u)) ++ a2).
    rewrite !fmap_app, H1, H2. f_equal. f_equal. by apply get_lessons_frame.
  - by rewrite (unit_element_shape u u' false Hu).
Qed.

Lemma blocks_frame c c' (us us' : list Unit) :
  same_frame c c' → Forall2 same_unit_frame us us' →
  result_map (fmap shape) (blocks c us) = result_map (fmap shape) (blocks c' us').
Proof.
  intros Hf Hus. induction Hus as [|u u' us us' Hu _ IH]; simpl; [done|].
  pose proof (block_frame c c' u u' Hf Hu) as Hb.
  destruct (block c u), (block c' u'); simpl in *; simplify_eq; [|done].
  destruct (blocks c us), (blocks c' us'); simpl in *; simplify_eq; [|done].
  rewrite !fmap_app. congruence.
Qed.

Lemma blocks_types c us els :
  blocks c us = Ok els →
  Forall (λ e, e_type e = "unit" ∨ e_type e = "lesson") els.
Proof.
  intros Hels. apply Forall_forall. intros e He.
  destruct (blocks_elem_inv _ _ _ _ Hels He) as (u & b & _ & Hb & Heb).
  destruct (block_elem_cases _ _ _ _ Hb Heb)
    as [[-> _]|[(_ & p & a & _ & _ & ->)|(_ & l & _ & ->)]]; auto.
Qed.

End frame.

(** X5: the outline [traverse_course] produces is always a payload [put]
    accepts: sent back as [element_settings], whatever the other keys,
    no entry raises and [put] returns normally. *)
Theorem outline_is_accepted (r : Request) (w : World) (els : list Element) :
  traverse_course (w_course w) = Ok els →
  p_element_settings (payload r) = Some (item_of_element <$> els) →
  Forall well_formed (item_of_element <$> els) ∧ (put r w).1 = Ok tt.
Proof.
  rewrite traverse_course_blocks. intros Hels Hitems.
  assert (Hwf : Forall well_formed (item_of_element <$> els)).
  { apply Forall_fmap. eapply Forall_impl; [exact (blocks_types _ _ _ Hels)|].
    intros e He. split; [|by eexists]. simpl. destruct He as [-> | ->]; auto. }
  split; [done|].
  destruct (authorized r) eqn:Hauth.
  - rewrite put_authorized, merged_outcome, Hitems by done. simpl.
    by rewrite (first_error_well_formed _ Hwf).
  - by destruct (put_unauthorized r w Hauth) as (-> & _).
Qed.

Lemma outline_is_accepted_sample :
  (put roundtrip_request sample_world).1 = Ok tt.
Proof.
  apply (outline_is_accepted roundtrip_request sample_world sample_outline);
    reflexivity.
Defined.

(** X6: [put] never adds, removes or reorders units or lessons, and
    assigns to nothing but availability and visibility: afterwards the
    units and the lessons are, position by position, the ones before with
    the same id, kind, title, references and owning unit. This holds for
    every request, also when [put] raises. *)
Theorem put_keeps_the_frame (r : Request) (w : World) :
  Forall2 same_unit_frame (units (w_course w)) (units (w_course (put r w).2))
  ∧ Forall2 same_lesson_frame (lessons (w_course w))
                              (lessons (w_course (put r w).2))
  ∧ length (units (w_course (put r w).2)) = length (units (w_course w))
  ∧ length (lessons (w_course (put r w).2)) = length (lessons (w_course w)).
Proof.
  destruct (put_same_frame r w) as [Hu Hl].
  split; [done|]. split; [done|]. split; symmetry.
  - by eapply Forall2_length.
  - by eapply Forall2_length.
Qed.

(** X7: [put] does not change what the outline looks like: after any
    [put], [traverse_course] fails exactly when it failed before, and
    otherwise lists elements of the same type, id, indentation and name
    in the same order; only the availability and visibility they carry
    can differ. *)
Theorem outline_shape_after_put (r : Request) (w : World) :
  result_map (fmap shape) (traverse_course (w_course (put r w).2))
  = result_map (fmap shape) (traverse_course (w_course w)).
Proof.
  rewrite !traverse_course_blocks. symmetry.
  pose proof (put_same_frame r w) as Hf.
  apply blocks_frame; [done|]. by destruct Hf.
Qed.

(** * Further properties of the write side *)

Section put_more.
Implicit Types (c : Course) (u a : Unit) (l : Lesson) (w : World).
Implicit Types (it : Item) (items : list Item) (r : Request).

Lemma well_formed_no_error it : well_formed it → item_error it = None.
Proof.
  intros [Hty [i Hi]]. unfold item_error. rewrite Hi.
  by destruct Hty as [-> | ->].
Qed.

Lemma not_well_formed_error it : ¬ well_formed it → is_Some (item_error it).
Proof.
  intros Hnot. unfold item_error.
  destruct (it_type it) as [ty|] eqn:Hty; [|by eexists].
  destruct (bool_decide (ty = PStr "unit") || bool_decide (ty = PStr "lesson"))
    eqn:Hok; [|by eexists].
  destruct (it_id it) as [i|] eqn:Hi; [|by eexists].
  destruct Hnot. split; [|by eexists].
  apply orb_true_iff in Hok as [H|H]; apply bool_decide_eq_true in H;
    subst; auto.
Qed.

Lemma ok_prefix_well_formed items :
  Forall well_formed items → ok_prefix items = items.
Proof.
  induction 1 as [|it items Hit _ IH]; simpl; [done|].
  by rewrite (well_formed_no_error it Hit), IH.
Qed.

Lemma ok_prefix_app_ok pre items :
  Forall well_formed pre → ok_prefix (pre ++ items) = pre ++ ok_prefix items.
Proof.
  induction 1 as [|it pre Hit _ IH]; simpl; [done|].
  by rewrite (well_formed_no_error it Hit), IH.
Qed.

Lemma first_error_app_ok pre items :
  Forall well_formed pre → first_error (pre ++ items) = first_error items.
Proof.
  induction 1 as [|it pre Hit _ IH]; simpl; [done|].
  by rewrite (well_formed_no_error it Hit).
Qed.

Lemma ok_prefix_Forall (P : Item → Prop) items :
  Forall P items → Forall P (ok_prefix items).
Proof.
  induction 1 as [|it items Hit _ IH]; simpl; [constructor|].
  destruct (item_error it); by constructor.
Qed.

Lemma run_effects_app items1 items2 c :
  run_effects (items1 ++ items2) c = run_effects items2 (run_effects items1 c).
Proof. unfold run_effects. apply foldl_app. Qed.

(** The effect of an entry, by its target. *)
Lemma item_effect_target it c :
  item_effect it c
  = match item_target it with
    | Some (true, i) =>
        mkCourse (modify_first (λ u, bool_decide (unit_id u = i))
                               (assign_unit it) (units c))
                 (lessons c) (course_availability c)
    | Some (false, i) =>
        mkCourse (units c)
                 (modify_first (λ l, bool_decide (lesson_id l = i))
                               (assign_lesson it) (lessons c))
                 (course_availability c)
    | None => c
    end.
Proof.
  unfold item_effect, item_target.
  destruct (it_type it) as [ty|]; [|done].
  destruct (it_id it) as [i|]; [|done].
  by repeat case_bool_decide.
Qed.

Lemma item_target_error it :
  is_Some (item_target it) ↔ item_error it = None.
Proof.
  unfold item_target, item_error.
  destruct (it_type it) as [ty|]; [|split; [by intros [? ?]|done]].
  destruct (it_id it) as [i|];
    repeat case_bool_decide; simpl; split; try done;
    try (by intros [? ?]); by eexists.
Qed.

Lemma first_match_modify_first {A} (g : A → ident) (f : A → A)
    (i j : ident) (xs : list A) :
  (∀ x, g (f x) = g x) →
  first_match (λ x, bool_decide (g x = j))
              (modify_first (λ x, bool_decide (g x = i)) f xs)
  = if decide (i = j)
    then f <$> first_match (λ x, bool_decide (g x = j)) xs
    else first_match (λ x, bool_decide (g x = j)) xs.
Proof.
  intros Hg. induction xs as [|y xs IH]; simpl; [by case_decide|].
  destruct (decide (g y = i)) as [Hyi|Hyi].
  - rewrite (bool_decide_eq_true_2 _ Hyi). simpl. rewrite Hg.
    destruct (decide (i = j)) as [<-|Hij].
    + by rewrite (bool_decide_eq_true_2 _ Hyi).
    + rewrite bool_decide_eq_false_2 by congruence. done.
  - rewrite (bool_decide_eq_false_2 _ Hyi). simpl.
    destruct (decide (g y = j)) as [Hyj|Hyj].
    + rewrite (bool_decide_eq_true_2 _ Hyj).
      destruct (decide (i = j)); [congruence|done].
    + rewrite (bool_decide_eq_false_2 _ Hyj). apply IH.
Qed.

Lemma find_unit_after_effect it c j :
  find_unit_by_id (item_effect it c) j
  = if decide (item_target it = Some (true, j))
    then assign_unit it <$> find_unit_by_id c j
    else find_unit_by_id c j.
Proof.
  rewrite item_effect_target. unfold find_unit_by_id.
  destruct (item_target it) as [[[] i]|].
  - cbn [units]. rewrite first_match_modify_first by apply assign_unit_id.
    destruct (decide (i = j)), (decide (Some (true, i) = Some (true, j)));
      simplify_eq; done.
  - destruct (decide (Some (false, i) = Some (true, j))); simplify_eq; done.
  - destruct (decide (None = Some (true, j))); simplify_eq; done.
Qed.

Lemma find_lesson_after_effect it c j :
  find_lesson_by_id (item_effect it c) j
  = if decide (item_target it = Some (false, j))
    then assign_lesson it <$> find_lesson_by_id c j
    else find_lesson_by_id c j.
Proof.
  rewrite item_effect_target. unfold find_lesson_by_id.
  destruct (item_target it) as [[[] i]|].
  - destruct (decide (Some (true, i) = Some (false, j))); simplify_eq; done.
  - cbn [lessons]. rewrite first_match_modify_first by apply assign_lesson_id.
    destruct (decide (i = j)), (decide (Some (false, i) = Some (false, j)));
      simplify_eq; done.
  - destruct (decide (None = Some (false, j))); simplify_eq; done.
Qed.

Lemma find_unit_untargeted items c j :
  Forall (λ it, item_target it ≠ Some (true, j)) items →
  find_unit_by_id (run_effects items c) j = find_unit_by_id c j.
Proof.
  unfold run_effects. intros Hall. revert c.
  induction Hall as [|it items Hit _ IH]; intros c; simpl; [done|].
  rewrite IH, find_unit_after_effect. by rewrite decide_False.
Qed.

Lemma find_lesson_untargeted items c j :
  Forall (λ it, item_target it ≠ Some (false, j)) items →
  find_lesson_by_id (run_effects items c) j = find_lesson_by_id c j.
Proof.
  unfold run_effects. intros Hall. revert c.
  induction Hall as [|it items Hit _ IH]; intros c; simpl; [done|].
  rewrite IH, find_lesson_after_effect. by rewrite decide_False.
Qed.

Lemma find_unit_survives items c j :
  is_Some (find_unit_by_id c j) →
  is_Some (find_unit_by_id (run_effects items c) j).
Proof.
  unfold run_effects. revert c.
  induction items as [|it items IH]; intros c Hc; simpl; [done|].
  apply IH. rewrite find_unit_after_effect.
  destruct (decide _); [|done]. by apply fmap_is_Some.
Qed.

Lemma find_lesson_survives items c j :
  is_Some (find_lesson_by_id c j) →
  is_Some (find_lesson_by_id (run_effects items c) j).
Proof.
  unfold run_effects. revert c.
  induction items as [|it items IH]; intros c Hc; simpl; [done|].
  apply IH. rewrite find_lesson_after_effect.
  destruct (decide _); [|done]. by apply fmap_is_Some.
Qed.

Lemma find_by_id_policy p c j :
  find_unit_by_id (apply_policy p c) j = find_unit_by_id c j
  ∧ find_lesson_by_id (apply_policy p c) j = find_lesson_by_id c j.
Proof. unfold apply_policy. by destruct (py_truthy _). Qed.

Lemma assign_unit_fields it u :
  (∀ v, it_availability it = Some v → availability (assign_unit it u) = v)
  ∧ (∀ v, it_shown_when_unavailable it = Some v →
          shown_when_unavailable (assign_unit it u) = v)
  ∧ (it_availability it = None →
     availability (assign_unit it u) = availability u)
  ∧ (it_shown_when_unavailable it = None →
     shown_when_unavailable (assign_unit it u) = shown_when_unavailable u).
Proof.
  unfold assign_unit.
  destruct (it_availability it), (it_shown_when_unavailable it);
    repeat split; intros; simplify_eq; done.
Qed.

Lemma assign_lesson_fields it l :
  (∀ v, it_availability it = Some v →
        lesson_availability (assign_lesson it l) = v)
  ∧ (∀ v, it_shown_when_unavailable it = Some v →
          lesson_shown_when_unavailable (assign_lesson it l) = v)
  ∧ (it_availability it = None →
     lesson_availability (assign_lesson it l) = lesson_availability l)
  ∧ (it_shown_when_unavailable it = None →
     lesson_shown_when_unavailable (assign_lesson it l)
     = lesson_shown_when_unavailable l).
Proof.
  unfold assign_lesson.
  destruct (it_availability it), (it_shown_when_unavailable it);
    repeat split; intros; simplify_eq; done.
Qed.

(** Entries for different entities commute. *)
Lemma modify_first_comm {A} (p q : A → bool) (f g : A → A) (xs : list A) :
  (∀ x, p x = true → q x = false) →
  (∀ x, p (g x) = p x) → (∀ x, q (f x) = q x) →
  modify_first p f (modify_first q g xs)
  = modify_first q g (modify_first p f xs).
Proof.
  intros Hpq Hpg Hqf. induction xs as [|y xs IH]; simpl; [done|].
  destruct (p y) eqn:Hp.
  - pose proof (Hpq y Hp) as Hq. rewrite Hq. simpl.
    rewrite Hp, Hqf, Hq. done.
  - destruct (q y) eqn:Hq; simpl; rewrite ?Hpg, ?Hp, ?Hq; simpl.
    + done.
    + by rewrite IH.
Qed.

Lemma item_effect_comm it1 it2 c :
  item_target it1 ≠ item_target it2 →
  item_effect it1 (item_effect it2 c) = item_effect it2 (item_effect it1 c).
Proof.
  intros Hne. rewrite !item_effect_target.
  destruct (item_target it1) as [[[] i]|], (item_target it2) as [[[] j]|];
    simpl; try done; f_equal.
  - apply modify_first_comm; intros x;
      rewrite ?assign_unit_id; [|done|done].
    intros ->%bool_decide_eq_true. apply bool_decide_eq_false. congruence.
  - apply modify_first_comm; intros x;
      rewrite ?assign_lesson_id; [|done|done].
    intros ->%bool_decide_eq_true. apply bool_decide_eq_false. congruence.
Qed.

Lemma run_effects_Permutation items items' c :
  items ≡ₚ items' → NoDup (item_target <$> items) →
  run_effects items c = run_effects items' c.
Proof.
  unfold run_effects. intros Hperm. revert c.
  induction Hperm as [|it l l' _ IH|it1 it2 l|l l' l'' H1 IH1 H2 IH2];
    intros c Hnd; simpl.
  - done.
  - rewrite fmap_cons in Hnd. apply NoDup_cons in Hnd as [_ Hnd]. by apply IH.
  - rewrite !fmap_cons in Hnd. apply NoDup_cons in Hnd as [Hne _].
    rewrite item_effect_comm; [done|].
    intros Heq. apply Hne. rewrite Heq. left.
  - rewrite IH1 by done. apply IH2. by rewrite <- H1.
Qed.

Lemma put_unauthorized_any r r' w :
  authorized r = false →
  xsrf_ok r' = xsrf_ok r → user_allowed r' = user_allowed r →
  put r' w = put r w.
Proof.
  unfold authorized, put. intros Hauth -> ->.
  destruct (xsrf_ok r); [|done]. simpl in *. by rewrite Hauth.
Qed.

End put_more.

(** X8: a request that fails the XSRF check or the permission check
    changes neither course nor settings and raises nothing, whatever its
    payload holds; the only call made is the 401 answer of the permission
    check. *)
Theorem put_without_access (r : Request) (w : World) :
  authorized r = false →
  put r w
  = (Ok tt,
     mkWorld (w_course w) (w_settings w)
       (w_calls w ++ if xsrf_ok r
                     then [SendJsonResponse 401 "Access denied."]
                     else [])).
Proof.
  unfold authorized, put. destruct (xsrf_ok r); simpl.
  - by intros ->.
  - intros _. rewrite app_nil_r. by destruct w.
Qed.

Lemma put_without_access_sample :
  put (mkRequest true false (payload section_request)) sample_world
  = (Ok tt, mkWorld sample_course sample_settings
              [SendJsonResponse 401 "Access denied."]).
Proof.
  apply (put_without_access (mkRequest true false (payload section_request))
           sample_world eq_refl).
Defined.

(** X9: once both access checks have passed, [put] first saves the
    settings as merged, then sets the course availability if asked to;
    when it returns normally it then saves the units and lessons as the
    loop left them and answers 200 "Saved." last; when it raises, it has
    made neither of these two calls. *)
Theorem put_calls_in_order (r : Request) (w : World) :
  authorized r = true →
  match (put r w).1 with
  | Ok _ =>
      w_calls (put r w).2
      = w_calls w
        ++ SaveSettings (w_settings (put r w).2) :: policy_calls (payload r)
        ++ [Save (units (w_course (put r w).2)) (lessons (w_course (put r w).2));
            SendJsonResponse 200 "Saved."]
  | Raise _ =>
      w_calls (put r w).2
      = w_calls w
        ++ SaveSettings (w_settings (put r w).2) :: policy_calls (payload r)
  end.
Proof.
  intros Hauth. rewrite put_authorized by done. unfold merged.
  destruct (first_error _); simpl; [done|].
  by rewrite <- app_assoc.
Qed.

Lemma put_calls_in_order_sample :
  w_calls (put policy_request sample_world).2
  = [SaveSettings sample_settings; SetCourseAvailability (PStr "public");
     Save (units sample_course) (lessons sample_course);
     SendJsonResponse 200 "Saved."].
Proof.
  exact (put_calls_in_order policy_request sample_world eq_refl).
Defined.

(** X10: whether [put] raises, and which exception, is decided by the
    request alone: no course and no settings make a payload fail or
    pass. *)
Theorem put_outcome_depends_on_request_only (r : Request) (w w' : World) :
  (put r w).1 = (put r w').1.
Proof.
  destruct (authorized r) eqn:Hauth.
  - by rewrite !put_authorized, !merged_outcome.
  - destruct (put_unauthorized r w Hauth) as (-> & _).
    by destruct (put_unauthorized r w' Hauth) as (-> & _).
Qed.

(** X11: when an entry raises, the entries before it have been applied
    to the course and the entries after it have not: course and settings
    are left as by the payload cut off before the failing entry (which,
    for its part, returns normally). *)
Theorem entries_before_the_failing_one_are_applied
    (r : Request) (w : World) (pre post : list Item) (bad : Item) :
  authorized r = true →
  p_element_settings (payload r) = Some (pre ++ bad :: post) →
  Forall well_formed pre →
  ¬ well_formed bad →
  (∃ e, (put r w).1 = Raise e)
  ∧ (put (with_element_settings (Some pre) r) w).1 = Ok tt
  ∧ w_course (put r w).2
    = w_course (put (with_element_settings (Some pre) r) w).2
  ∧ w_settings (put r w).2
    = w_settings (put (with_element_settings (Some pre) r) w).2.
Proof.
  intros Hauth Hitems Hpre Hbad.
  assert (Hauth' : authorized (with_element_settings (Some pre) r) = true)
    by done.
  rewrite (put_authorized r w Hauth), (put_authorized _ w Hauth').
  rewrite !merged_outcome, !merged_course, !merged_settings.
  rewrite Hitems. simpl.
  destruct (not_well_formed_error bad Hbad) as [e He].
  rewrite first_error_app_ok, ok_prefix_app_ok by done. simpl.
  rewrite He, app_nil_r, (first_error_well_formed pre Hpre),
    (ok_prefix_well_formed pre Hpre).
  split; [by exists e|]. done.
Qed.

Lemma entries_before_the_failing_one_are_applied_sample :
  (∃ e, (put partial_request sample_world).1 = Raise e)
  ∧ availability <$> find_unit_by_id (w_course (put partial_request sample_world).2) 1
    = Some (PStr "private")
  ∧ lesson_shown_when_unavailable
      <$> find_lesson_by_id (w_course (put partial_request sample_world).2) 10
    = Some (PBool false).
Proof.
  destruct (entries_before_the_failing_one_are_applied
              partial_request sample_world
              [mkItem (Some (PStr "unit")) (Some 1%positive)
                      (Some (PStr "private")) None]
              [mkItem (Some (PStr "lesson")) (Some 10%positive)
                      None (Some (PBool true))]
              (mkItem (Some (PStr "chapter")) (Some 1%positive) None None)
              eq_refl eq_refl) as (Hraise & _ & Hcourse & _).
  - constructor; [|constructor]. split; [by left|by eexists].
  - intros [[H|H] _]; discriminate H.
  - split; [exact Hraise|]. rewrite Hcourse. split; reflexivity.
Defined.

(** X12: of the settings, [put] writes two keys and no other. Once both
    access checks have passed, a whitelist that is not [null] is stored
    as it is, of whatever type; a show-lessons value that is not [null]
    is stored as the boolean of its truth value; every other key of the
    two dictionaries keeps its value. *)
Theorem put_settings_keys (r : Request) (w : World) :
  authorized r = true →
  (∀ k, k ≠ "whitelist"%string →
        reg_form (w_settings (put r w).2) !! k = reg_form (w_settings w) !! k)
  ∧ (∀ k, k ≠ "show_lessons_in_syllabus"%string →
          course_dict (w_settings (put r w).2) !! k
          = course_dict (w_settings w) !! k)
  ∧ (dict_get (p_whitelist (payload r)) ≠ PNone →
     reg_form (w_settings (put r w).2) !! "whitelist"
     = Some (dict_get (p_whitelist (payload r))))
  ∧ (dict_get (p_show_lessons_in_syllabus (payload r)) ≠ PNone →
     course_dict (w_settings (put r w).2) !! "show_lessons_in_syllabus"
     = Some (PBool (py_truthy
                      (dict_get (p_show_lessons_in_syllabus (payload r)))))).
Proof.
  intros Hauth. rewrite put_authorized, merged_settings by done.
  unfold merge_settings, set_reg_form, set_course_dict, py_bool.
  repeat split.
  - intros k Hk. repeat case_bool_decide; simpl; by rewrite ?lookup_insert_ne.
  - intros k Hk. repeat case_bool_decide; simpl; by rewrite ?lookup_insert_ne.
  - intros Hv. repeat case_bool_decide; simpl; by rewrite ?lookup_insert_eq.
  - intros Hv. repeat case_bool_decide; simpl; by rewrite ?lookup_insert_eq.
Qed.

Lemma put_settings_keys_sample :
  reg_form (w_settings (put full_request sample_world).2) !! "whitelist"
  = Some (PStr "b@example.com")
  ∧ course_dict (w_settings (put full_request sample_world).2)
    !! "show_lessons_in_syllabus" = Some (PBool false).
Proof.
  destruct (put_settings_keys full_request sample_world eq_refl)
    as (_ & _ & Hwl & Hshow).
  split; [by apply Hwl|by apply Hshow].
Defined.

(** X13: the last entry for a unit decides. When the entries up to and
    including an entry for unit [j] are well formed and no later entry is
    for unit [j], the unit found under [j] after [put] carries the
    availability and the visibility that entry gives; a key the entry
    does not have is not what this entry decides. *)
Theorem last_entry_for_a_unit_wins
    (r : Request) (w : World) (pre post : list Item) (it : Item)
    (j : ident) (u : Unit) :
  authorized r = true →
  p_element_settings (payload r) = Some (pre ++ it :: post) →
  Forall well_formed pre →
  item_target it = Some (true, j) →
  Forall (λ it', item_target it' ≠ Some (true, j)) post →
  find_unit_by_id (w_course w) j = Some u →
  ∃ u', find_unit_by_id (w_course (put r w).2) j = Some u'
        ∧ (∀ v, it_availability it = Some v → availability u' = v)
        ∧ (∀ v, it_shown_when_unavailable it = Some v →
                shown_when_unavailable u' = v).
Proof.
  intros Hauth Hitems Hpre Hit Hpost Hu.
  rewrite put_authorized, merged_course, Hitems by done. simpl.
  assert (Herr : item_error it = None).
  { apply item_target_error. rewrite Hit. by eexists. }
  rewrite ok_prefix_app_ok by done. simpl. rewrite Herr.
  rewrite run_effects_app.
  change (it :: ok_prefix post) with ([it] ++ ok_prefix post).
  rewrite run_effects_app.
  rewrite find_unit_untargeted by (by apply ok_prefix_Forall).
  unfold run_effects at 1. simpl. rewrite find_unit_after_effect.
  rewrite decide_True by done.
  destruct (find_unit_survives pre (apply_policy (payload r) (w_course w)) j)
    as [u1 Hu1].
  { destruct (find_by_id_policy (payload r) (w_course w) j) as [-> _].
    by eexists. }
  rewrite Hu1. simpl. exists (assign_unit it u1). split; [done|].
  destruct (assign_unit_fields it u1) as (Ha & Hs & _). by split.
Qed.

Lemma last_entry_for_a_unit_wins_sample :
  ∃ u', find_unit_by_id (w_course (put two_entries_request sample_world).2) 1
        = Some u'
        ∧ availability u' = PStr "course"
        ∧ shown_when_unavailable u' = PBool true.
Proof.
  destruct (last_entry_for_a_unit_wins two_entries_request sample_world
              [mkItem (Some (PStr "unit")) (Some 1%positive)
                      (Some (PStr "private")) None]
              [mkItem (Some (PStr "lesson")) (Some 10%positive)
                      None (Some (PBool true))]
              (mkItem (Some (PStr "unit")) (Some 1%positive)
                      (Some (PStr "course")) (Some (PBool true)))
              1 sample_unit eq_refl eq_refl) as (u' & Hu' & Ha & Hs).
  - constructor; [|constructor]. split; [by left|by eexists].
  - reflexivity.
  - constructor; [discriminate|constructor].
  - reflexivity.
  - exists u'. split; [exact Hu'|]. split; [by apply Ha|by apply Hs].
Defined.

(** X14: the same for lessons: the last entry for lesson [j] decides the
    availability and visibility of the lesson found under [j]. *)
Theorem last_entry_for_a_lesson_wins
    (r : Request) (w : World) (pre post : list Item) (it : Item)
    (j : ident) (l : Lesson) :
  authorized r = true →
  p_element_settings (payload r) = Some (pre ++ it :: post) →
  Forall well_formed pre →
  item_target it = Some (false, j) →
  Forall (λ it', item_target it' ≠ Some (false, j)) post →
  find_lesson_by_id (w_course w) j = Some l →
  ∃ l', find_lesson_by_id (w_course (put r w).2) j = Some l'
        ∧ (∀ v, it_availability it = Some v → lesson_availability l' = v)
        ∧ (∀ v, it_shown_when_unavailable it = Some v →
                lesson_shown_when_unavailable l' = v).
Proof.
  intros Hauth Hitems Hpre Hit Hpost Hl.
  rewrite put_authorized, merged_course, Hitems by done. simpl.
  assert (Herr : item_error it = None).
  { apply item_target_error. rewrite Hit. by eexists. }
  rewrite ok_prefix_app_ok by done. simpl. rewrite Herr.
  rewrite run_effects_app.
  change (it :: ok_prefix post) with ([it] ++ ok_prefix post).
  rewrite run_effects_app.
  rewrite find_lesson_untargeted by (by apply ok_prefix_Forall).
  unfold run_effects at 1. simpl. rewrite find_lesson_after_effect.
  rewrite decide_True by done.
  destruct (find_lesson_survives pre (apply_policy (payload r) (w_course w)) j)
    as [l1 Hl1].
  { destruct (find_by_id_policy (payload r) (w_course w) j) as [_ ->].
    by eexists. }
  rewrite Hl1. simpl. exists (assign_lesson it l1). split; [done|].
  destruct (assign_lesson_fields it l1) as (Ha & Hs & _). by split.
Qed.

Lemma last_entry_for_a_lesson_wins_sample :
  ∃ l', find_lesson_by_id (w_course (put two_entries_request sample_world).2) 10
        = Some l'
        ∧ lesson_shown_when_unavailable l' = PBool true.
Proof.
  destruct (last_entry_for_a_lesson_wins two_entries_request sample_world
              [mkItem (Some (PStr "unit")) (Some 1%positive)
                      (Some (PStr "private")) None;
               mkItem (Some (PStr "unit")) (Some 1%positive)
                      (Some (PStr "course")) (Some (PBool true))]
              []
              (mkItem (Some (PStr "lesson")) (Some 10%positive)
                      None (Some (PBool true)))
              10 sample_lesson_a eq_refl eq_refl) as (l' & Hl' & _ & Hs).
  - constructor; [|constructor; [|constructor]];
      (split; [by left|by eexists]).
  - reflexivity.
  - constructor.
  - reflexivity.
  - exists l'. split; [exact Hl'|]. by apply Hs.
Defined.

(** X15: [put] changes only what the payload names: a unit that no entry
    is for is found unchanged afterwards, and so is a lesson that no
    entry is for. An entry of type "lesson" never changes a unit, nor one
    of type "unit" a lesson, even under the same id. *)
Theorem entities_without_entry_unchanged (r : Request) (w : World) (j : ident) :
  (Forall (λ it, item_target it ≠ Some (true, j))
          (default [] (p_element_settings (payload r))) →
   find_unit_by_id (w_course (put r w).2) j = find_unit_by_id (w_course w) j)
  ∧ (Forall (λ it, item_target it ≠ Some (false, j))
            (default [] (p_element_settings (payload r))) →
     find_lesson_by_id (w_course (put r w).2) j
     = find_lesson_by_id (w_course w) j).
Proof.
  destruct (authorized r) eqn:Hauth.
  - rewrite put_authorized, merged_course by done.
    destruct (find_by_id_policy (payload r) (w_course w) j) as [Hu Hl].
    split; intros Hall.
    + rewrite find_unit_untargeted by (by apply ok_prefix_Forall). done.
    + rewrite find_lesson_untargeted by (by apply ok_prefix_Forall). done.
  - destruct (put_unauthorized r w Hauth) as (_ & -> & _). done.
Qed.

Lemma entities_without_entry_unchanged_sample :
  find_unit_by_id (w_course (put two_entries_request sample_world).2) 2
  = Some sample_pre
  ∧ find_lesson_by_id (w_course (put two_entries_request sample_world).2) 11
    = Some sample_lesson_b.
Proof.
  destruct (entities_without_entry_unchanged two_entries_request sample_world 2)
    as [Hu _].
  destruct (entities_without_entry_unchanged two_entries_request sample_world 11)
    as [_ Hl].
  split.
  - rewrite Hu; [reflexivity|]. repeat constructor; discriminate.
  - rewrite Hl; [reflexivity|]. repeat constructor; discriminate.
Defined.

(** X16: the order of the entries matters only among entries for the
    same entity: for well-formed entries with pairwise different targets,
    [put] gives the same result and leaves the same state in whatever
    order they come. *)
Theorem entries_for_different_entities_commute
    (r : Request) (w : World) (items items' : list Item) :
  items ≡ₚ items' →
  Forall well_formed items →
  NoDup (item_target <$> items) →
  put (with_element_settings (Some items) r) w
  = put (with_element_settings (Some items') r) w.
Proof.
  intros Hperm Hwf Hnd.
  assert (Hwf' : Forall well_formed items') by (by rewrite <- Hperm).
  destruct (authorized r) eqn:Hauth.
  - assert (authorized (with_element_settings (Some items) r) = true) by done.
    assert (authorized (with_element_settings (Some items') r) = true) by done.
    rewrite !put_authorized by done. unfold merged. simpl.
    rewrite !first_error_well_formed, !ok_prefix_well_formed by done.
    by rewrite (run_effects_Permutation items items' _ Hperm Hnd).
  - rewrite (put_unauthorized_any r (with_element_settings (Some items) r) w
               Hauth eq_refl eq_refl).
    by rewrite (put_unauthorized_any r (with_element_settings (Some items') r) w
                  Hauth eq_refl eq_refl).
Qed.

Lemma entries_for_different_entities_commute_sample :
  put (with_element_settings
         (Some [mkItem (Some (PStr "unit")) (Some 2%positive)
                       (Some (PStr "public")) None;
                mkItem (Some (PStr "lesson")) (Some 10%positive) None
                       (Some (PBool true))]) policy_request) sample_world
  = put (with_element_settings
           (Some [mkItem (Some (PStr "lesson")) (Some 10%positive) None
                         (Some (PBool true));
                  mkItem (Some (PStr "unit")) (Some 2%positive)
                         (Some (PStr "public")) None]) policy_request)
        sample_world.
Proof.
  apply entries_for_different_entities_commute.
  - apply perm_swap.
  - constructor; [|constructor; [|constructor]].
    + split; [by left|by eexists].
    + split; [by right|by eexists].
  - simpl. apply (bool_decide_unpack _); vm_compute; exact I.
Defined.

(** * Properties of [get] *)

Section get_put.
Implicit Types (c : Course) (w : World) (r : Request).
Implicit Types (rep : Reply) (ent : Entity).

Lemma get_Ok_inv w rep :
  get true w = Ok rep →
  ∃ wl els,
    reg_form (w_settings w) !! "whitelist" = Some wl
    ∧ traverse_course (w_course w) = Ok els
    ∧ rep = mkReply 200 "OK."
              (Some (mkEntity
                       (course_availability (w_course w))
                       (default (PBool false)
                          (course_dict (w_settings w)
                             !! "show_lessons_in_syllabus"))
                       wl els))
              (Some ACTION).
Proof.
  unfold get. simpl.
  destruct (reg_form (w_settings w) !! "whitelist") as [wl|]; simpl; [|done].
  destruct (traverse_course (w_course w)) as [els|]; simpl; [|done].
  intros [= <-]. by exists wl, els.
Qed.

(** [get] reads the course, the whitelist and the show-lessons flag, and
    nothing else. *)
Lemma get_reads allowed w w' :
  w_course w' = w_course w →
  reg_form (w_settings w') !! "whitelist"
  = reg_form (w_settings w) !! "whitelist" →
  default (PBool false) (course_dict (w_settings w') !! "show_lessons_in_syllabus")
  = default (PBool false) (course_dict (w_settings w) !! "show_lessons_in_syllabus") →
  get allowed w' = get allowed w.
Proof. unfold get. by intros -> -> ->. Qed.

Lemma merge_settings_lookups (p : Payload) (s : Settings) :
  (∀ k, k ≠ "whitelist"%string →
        reg_form (merge_settings p s) !! k = reg_form s !! k)
  ∧ (∀ k, k ≠ "show_lessons_in_syllabus"%string →
          course_dict (merge_settings p s) !! k = course_dict s !! k)
  ∧ (dict_get (p_whitelist p) ≠ PNone →
     reg_form (merge_settings p s) !! "whitelist"
     = Some (dict_get (p_whitelist p)))
  ∧ (dict_get (p_show_lessons_in_syllabus p) ≠ PNone →
     course_dict (merge_settings p s) !! "show_lessons_in_syllabus"
     = Some (PBool (py_truthy (dict_get (p_show_lessons_in_syllabus p))))).
Proof.
  unfold merge_settings, set_reg_form, set_course_dict, py_bool.
  repeat split.
  - intros k Hk. repeat case_bool_decide; simpl; by rewrite ?lookup_insert_ne.
  - intros k Hk. repeat case_bool_decide; simpl; by rewrite ?lookup_insert_ne.
  - intros Hv. repeat case_bool_decide; simpl; by rewrite ?lookup_insert_eq.
  - intros Hv. repeat case_bool_decide; simpl; by rewrite ?lookup_insert_eq.
Qed.

Lemma apply_policy_same c p :
  dict_get (p_course_availability p) = course_availability c →
  apply_policy p c = c.
Proof.
  unfold apply_policy. intros ->.
  destruct (py_truthy _); [|done]. by destruct c.
Qed.

End get_put.

(** X17: how [get] ends. Without the permission it answers 401 and reads
    nothing, so it cannot raise. With it, it raises KeyError when the
    registration form settings have no "whitelist" key (whatever the
    course), AttributeError when they have one and some reference of a
    plain unit names no unit, and otherwise answers 200 with an XSRF
    token for the handler's action; a missing show-lessons flag is
    reported as [False]. *)
Theorem get_outcomes (w : World) :
  get false w = Ok (mkReply 401 "Access denied." None None)
  ∧ (reg_form (w_settings w) !! "whitelist" = None →
     get true w = Raise KeyError)
  ∧ (is_Some (reg_form (w_settings w) !! "whitelist") →
     refs_resolve (w_course w) = false →
     get true w = Raise AttributeError)
  ∧ (is_Some (reg_form (w_settings w) !! "whitelist") →
     refs_resolve (w_course w) = true →
     ∃ ent, get true w = Ok (mkReply 200 "OK." (Some ent) (Some ACTION))
            ∧ (course_dict (w_settings w) !! "show_lessons_in_syllabus" = None →
               ent_show_lessons_in_syllabus ent = PBool false)).
Proof.
  split; [done|]. unfold get. simpl.
  pose proof (blocks_spec (w_course w) (units (w_course w))) as Hspec.
  fold (refs_resolve (w_course w)) in Hspec.
  rewrite <- traverse_course_blocks in Hspec.
  split; [by intros ->|]. split.
  - intros [wl ->] Hres. rewrite Hres in Hspec. by rewrite Hspec.
  - intros [wl ->] Hres. rewrite Hres in Hspec. destruct Hspec as [els ->].
    simpl. eexists. split; [done|]. by intros ->.
Qed.

Lemma get_outcomes_sample :
  get true (mkWorld dangling_course sample_settings []) = Raise AttributeError
  ∧ get true (mkWorld dangling_course (mkSettings ∅ ∅) []) = Raise KeyError
  ∧ ∃ ent, get true sample_world
           = Ok (mkReply 200 "OK." (Some ent) (Some ACTION)).
Proof.
  split; [|split].
  - apply (get_outcomes (mkWorld dangling_course sample_settings []));
      [by eexists|reflexivity].
  - apply (get_outcomes (mkWorld dangling_course (mkSettings ∅ ∅) [])).
    reflexivity.
  - destruct (get_outcomes sample_world) as (_ & _ & _ & H).
    destruct H as (ent & Hent & _); [by eexists|reflexivity|].
    by exists ent.
Defined.

(** X18: [get] reads back what [put] wrote. After a [put] that passed
    both access checks, whether or not it raised in the loop, a [get]
    that succeeds reports the whitelist of the payload if that was not
    [null], the boolean of the payload's show-lessons value if that was
    not [null], and the payload's course availability if that was truthy
    (the former one otherwise). *)
Theorem get_after_put (r : Request) (w : World) (rep : Reply) (ent : Entity) :
  authorized r = true →
  get true (put r w).2 = Ok rep →
  payload_dict rep = Some ent →
  (dict_get (p_whitelist (payload r)) ≠ PNone →
   ent_whitelist ent = dict_get (p_whitelist (payload r)))
  ∧ (dict_get (p_show_lessons_in_syllabus (payload r)) ≠ PNone →
     ent_show_lessons_in_syllabus ent
     = PBool (py_truthy (dict_get (p_show_lessons_in_syllabus (payload r)))))
  ∧ ent_course_availability ent
    = (if py_truthy (dict_get (p_course_availability (payload r)))
       then dict_get (p_course_availability (payload r))
       else course_availability (w_course w)).
Proof.
  intros Hauth Hget Hent.
  destruct (get_Ok_inv _ _ Hget) as (wl & els & Hwl & _ & ->).
  simpl in Hent. injection Hent as <-. simpl.
  rewrite put_authorized, merged_settings in Hwl |- * by done.
  destruct (merge_settings_lookups (payload r) (w_settings w))
    as (_ & _ & Hw & Hs).
  split; [|split].
  - intros Hv. rewrite (Hw Hv) in Hwl. by injection Hwl as <-.
  - intros Hv. by rewrite (Hs Hv).
  - rewrite merged_course.
    destruct (run_effects_frame
                (ok_prefix (default [] (p_element_settings (payload r))))
                (apply_policy (payload r) (w_course w))) as (_ & _ & ->).
    unfold apply_policy.
    by destruct (py_truthy (dict_get (p_course_availability (payload r)))).
Qed.

Lemma get_after_put_sample :
  ent_whitelist
    (mkEntity (PStr "registration_required") (PBool false)
              (PStr "b@example.com") sample_outline)
  = PStr "b@example.com"
  ∧ get true (put full_request sample_world).2
    = Ok (mkReply 200 "OK."
            (Some (mkEntity (PStr "registration_required") (PBool false)
                            (PStr "b@example.com") sample_outline))
            (Some ACTION)).
Proof.
  assert (Hget : get true (put full_request sample_world).2
                 = Ok (mkReply 200 "OK."
                         (Some (mkEntity (PStr "registration_required")
                                  (PBool false) (PStr "b@example.com")
                                  sample_outline))
                         (Some ACTION))) by (vm_compute; reflexivity).
  split; [|exact Hget].
  apply (get_after_put full_request sample_world _ _ eq_refl Hget eq_refl).
  discriminate.
Defined.

(** X19: sending back what [get] gave changes nothing that [get] shows.
    For a course with unique unit and lesson identifiers whose stored
    show-lessons flag is missing, [null] or a boolean, a [put] of the
    entity [get] returned returns normally, leaves the course and the
    registration form settings as they were, and a second [get] gives
    the same reply. *)
Theorem get_put_get (w : World) (rep : Reply) (ent : Entity) :
  get true w = Ok rep →
  payload_dict rep = Some ent →
  unique_unit_ids (w_course w) →
  unique_lesson_ids (w_course w) →
  (∀ v, course_dict (w_settings w) !! "show_lessons_in_syllabus" = Some v →
        v = PNone ∨ ∃ b, v = PBool b) →
  (put (mkRequest true true (payload_of_entity ent)) w).1 = Ok tt
  ∧ w_course (put (mkRequest true true (payload_of_entity ent)) w).2
    = w_course w
  ∧ reg_form (w_settings (put (mkRequest true true (payload_of_entity ent)) w).2)
    = reg_form (w_settings w)
  ∧ get true (put (mkRequest true true (payload_of_entity ent)) w).2 = Ok rep.
Proof.
  intros Hget Hent Hnu Hnl Hflag.
  destruct (get_Ok_inv _ _ Hget) as (wl & els & Hwl & Hels & ->).
  simpl in Hent. injection Hent as <-.
  set (r := mkRequest true true _).
  assert (Hcourse : w_course (put r w).2 = w_course w
                    ∧ (put r w).1 = Ok tt).
  { rewrite (put_authorized r w eq_refl), merged_course, merged_outcome.
    simpl. rewrite apply_policy_same by done.
    rewrite traverse_course_blocks in Hels.
    pose proof (blocks_echoes _ _ _ Hnu Hnl (λ u Hu, Hu) Hels) as Hechoes.
    destruct (echoes_run _ (w_course w) _ Hechoes eq_refl eq_refl) as [-> ->].
    done. }
  assert (Hreg : reg_form (w_settings (put r w).2) = reg_form (w_settings w)).
  { rewrite (put_authorized r w eq_refl), merged_settings.
    unfold merge_settings, set_reg_form, set_course_dict. simpl.
    repeat case_bool_decide; simpl; try done; by rewrite insert_id. }
  destruct Hcourse as [Hcourse Hok].
  split; [done|]. split; [done|]. split; [done|].
  rewrite <- Hget. apply get_reads; [done|by rewrite Hreg|].
  rewrite (put_authorized r w eq_refl), merged_settings.
  unfold merge_settings, set_reg_form, set_course_dict, py_bool. simpl.
  destruct (course_dict (w_settings w) !! "show_lessons_in_syllabus")
    as [v|] eqn:Hv; simpl.
  - destruct (Hflag v eq_refl) as [->|[b ->]]; simpl.
    + repeat case_bool_decide; simpl; try done; by rewrite Hv.
    + repeat case_bool_decide; simpl; try done;
        by rewrite lookup_insert_eq.
  - repeat case_bool_decide; simpl; try done; by rewrite lookup_insert_eq.
Qed.

Lemma get_put_get_sample :
  get true
    (put (mkRequest true true
            (payload_of_entity
               (mkEntity (PStr "private") (PBool true) (PStr "a@example.com")
                         sample_outline)))
         sample_world).2
  = get true sample_world.
Proof.
  assert (Hget : get true sample_world
                 = Ok (mkReply 200 "OK."
                         (Some (mkEntity (PStr "private") (PBool true)
                                  (PStr "a@example.com") sample_outline))
                         (Some ACTION))) by (vm_compute; reflexivity).
  rewrite Hget.
  apply (get_put_get sample_world _ _ Hget eq_refl).
  - unfold unique_unit_ids. simpl. apply (bool_decide_unpack _); vm_compute; exact I.
  - unfold unique_lesson_ids. simpl. apply (bool_decide_unpack _); vm_compute; exact I.
  - intros v Hv. right. exists true.
    change (course_dict (w_settings sample_world) !! "show_lessons_in_syllabus")
      with (Some (PBool true)) in Hv.
    by injection Hv as <-.
Defined.
